(** * Video compression server: argument sanitisation and bounded execution

    A shallow embedding of the security-critical core of the service:
    [app/config.py] (the settings), [app/utils/validators.py]
    ([FFmpegValidator]), [app/utils/exceptions.py] (the error classes),
    [app/services/ffmpeg_service.py] ([FFmpegService]) and the request
    handler of [app/main.py].

    Python [str] values are modelled as [string] (the UTF-8 bytes of the
    text).  Every pattern the code searches for is ASCII, and UTF-8 is
    self-synchronising, so [in], [startswith] and [==] on the bytes agree
    with the same operations on code points. *)

From Stdlib Require Import String Ascii List ZArith Bool Lia SpecFloat DecimalString.
From stdpp Require Import gmap strings list fin_maps.
Import ListNotations.
Local Open Scope string_scope.
Local Open Scope list_scope.

(** ** Python string primitives *)

Module PyStr.

(** [s.startswith(p)] *)
Definition startswith (s p : string) : bool := String.prefix p s.

(** [p in s] for two strings: [p] occurs as a contiguous substring of [s]. *)
Fixpoint str_in (p s : string) : bool :=
  String.prefix p s ||
  match s with
  | EmptyString => false
  | String _ s' => str_in p s'
  end.

(** [sep.join(l)] *)
Definition join (sep : string) (l : list string) : string := String.concat sep l.

(** [x in l] for a list of strings. *)
Definition list_in (x : string) (l : list string) : bool :=
  existsb (String.eqb x) l.

(** Every character of [s] satisfies [P]. *)
Fixpoint str_forall (P : ascii -> bool) (s : string) : bool :=
  match s with
  | EmptyString => true
  | String c s' => P c && str_forall P s'
  end.

Definition chr (n : nat) : string := String (ascii_of_nat n) EmptyString.

Definition space : ascii := ascii_of_nat 32.
Definition newline : ascii := ascii_of_nat 10.

(** [os.path.join(a, b)] on POSIX, for two components. *)
Definition os_path_join (a b : string) : string :=
  if startswith b "/" then b
  else if String.eqb a "" then b
  else if String.eqb (substring (String.length a - 1) 1 a) "/" then a +:+ b
  else a +:+ "/" +:+ b.

End PyStr.

Import PyStr.

(** ** [app/config.py] *)

Module Settings.

Definition MAX_FILE_SIZE : Z := 200 * 1024 * 1024.

Definition ALLOWED_EXTENSIONS : list string :=
  [ ".mp4"; ".avi"; ".mov"; ".mkv"; ".wmv"; ".flv";
    ".webm"; ".m4v"; ".3gp"; ".ogv" ].

Definition MAX_PROCESSING_TIME : Z := 60.

Definition FFMPEG_ALLOWED_OPTIONS : list string :=
  [ "-c:v"; "-vcodec"; "-c:a"; "-acodec";
    "-b:v"; "-b:a"; "-crf"; "-s"; "-r"; "-vf";
    "-preset"; "-tune"; "-profile:v"; "-f" ].

Definition FFMPEG_FORBIDDEN_PATTERNS : list string :=
  [ "-i"; "/dev/"; "file://"; "http://"; "https://";
    "exec"; "system"; "pipe"; "$("; "`" ].

Definition TEMP_DIR : string := "/tmp".

End Settings.

(** ** Regular expressions, as far as [_is_safe_value] uses them *)

Module Regex.

Inductive regex : Type :=
| Void
| Eps
| Chr (c : ascii)
| Digit
| Cat (r1 r2 : regex)
| Alt (r1 r2 : regex)
| Star (r : regex).

(** [\d] on the ASCII digits.  Python's [\d] also matches the other
    Unicode decimal digits; the validator applies its patterns only to
    values that hold a dangerous character, which no pattern admits, so
    the verdict of [validate_options] is the same. *)
Definition is_digit (c : ascii) : bool :=
  let n := nat_of_ascii c in (48 <=? n)%nat && (n <=? 57)%nat.

Fixpoint nullable (r : regex) : bool :=
  match r with
  | Void => false
  | Eps => true
  | Chr _ => false
  | Digit => false
  | Cat r1 r2 => nullable r1 && nullable r2
  | Alt r1 r2 => nullable r1 || nullable r2
  | Star _ => true
  end.

(** Brzozowski derivative of [r] by the character [c]. *)
Fixpoint deriv (c : ascii) (r : regex) : regex :=
  match r with
  | Void => Void
  | Eps => Void
  | Chr c' => if Ascii.eqb c c' then Eps else Void
  | Digit => if is_digit c then Eps else Void
  | Cat r1 r2 =>
      if nullable r1
      then Alt (Cat (deriv c r1) r2) (deriv c r2)
      else Cat (deriv c r1) r2
  | Alt r1 r2 => Alt (deriv c r1) (deriv c r2)
  | Star r1 => Cat (deriv c r1) (Star r1)
  end.

(** The whole of [s] is in the language of [r]. *)
Fixpoint matches (r : regex) (s : string) : bool :=
  match s with
  | EmptyString => nullable r
  | String c s' => matches (deriv c r) s'
  end.

(** A literal word. *)
Fixpoint Lit (s : string) : regex :=
  match s with
  | EmptyString => Eps
  | String c s' => Cat (Chr c) (Lit s')
  end.

(** [r+] *)
Definition Plus (r : regex) : regex := Cat r (Star r).

(** [(r1|r2|...)] *)
Definition AltOf (rs : list regex) : regex := fold_right Alt Void rs.

(** [re.match('^' + r + '$', s)]: [re.match] anchors at the start; without
    [re.MULTILINE], [$] matches at the end of the string and just before
    a newline that ends the string. *)
Definition re_match_anchored (r : regex) (s : string) : bool :=
  matches (Cat r (Alt Eps (Chr newline))) s.

(** No word of [r] exists: a sufficient syntactic test. *)
Fixpoint dead (r : regex) : bool :=
  match r with
  | Void => true
  | Eps | Chr _ | Digit | Star _ => false
  | Cat r1 r2 => dead r1 || dead r2
  | Alt r1 r2 => dead r1 && dead r2
  end.

(** Every literal character of [r] satisfies [P]. *)
Fixpoint alphabet_ok (P : ascii -> bool) (r : regex) : bool :=
  match r with
  | Void | Eps | Digit => true
  | Chr c => P c
  | Cat r1 r2 | Alt r1 r2 => alphabet_ok P r1 && alphabet_ok P r2
  | Star r1 => alphabet_ok P r1
  end.

End Regex.

(** ** [app/utils/validators.py]: [FFmpegValidator] *)

Module FFmpegValidator.

Import Settings Regex.

Definition dangerous_chars : list string :=
  [ "/"; chr 92; "|"; "&"; ";"; "`"; "$"; "("; ")" ].

Definition safe_patterns : list regex :=
  [ Plus Digit;
    Lit "libx264"; Lit "libx265"; Lit "libvpx"; Lit "aac";
    AltOf [ Lit "ultrafast"; Lit "superfast"; Lit "veryfast"; Lit "faster";
            Lit "fast"; Lit "medium"; Lit "slow"; Lit "slower"; Lit "veryslow" ];
    Cat (Plus Digit) (Cat (Chr "x") (Plus Digit));
    Cat (Lit "scale=") (Cat (Plus Digit) (Cat (Chr ":") (Plus Digit))) ].

Definition _is_safe_value (value : string) : bool :=
  existsb (fun pattern => re_match_anchored pattern value) safe_patterns.

(** [any(char in arg for char in dangerous_chars)] *)
Definition has_dangerous_char (arg : string) : bool :=
  existsb (fun char => str_in char arg) dangerous_chars.

(** The [while i < len(ffmpeg_args)] loop, from index [i] on: [args] is
    the part of the list not yet visited. *)
Fixpoint check_tokens (args : list string) : bool * string :=
  match args with
  | [] => (true, "Valid options")
  | arg :: rest =>
      if startswith arg "-" then
        if negb (list_in arg FFMPEG_ALLOWED_OPTIONS)
        then (false, "Option not allowed: " +:+ arg)
        else check_tokens rest
      else
        if has_dangerous_char arg then
          if negb (_is_safe_value arg)
          then (false, "Potentially dangerous value: " +:+ arg)
          else check_tokens rest
        else check_tokens rest
  end.

Definition validate_options (ffmpeg_args : list string) : bool * string :=
  match ffmpeg_args with
  | [] => (true, "No options provided")
  | _ =>
      let args_str := join " " ffmpeg_args in
      match find (fun forbidden => str_in forbidden args_str)
                 FFMPEG_FORBIDDEN_PATTERNS with
      | Some forbidden => (false, "Forbidden pattern detected: " +:+ forbidden)
      | None => check_tokens ffmpeg_args
      end
  end.

End FFmpegValidator.

Import Settings Regex FFmpegValidator.

(** ** [app/utils/exceptions.py] *)

Module Exceptions.

Inductive vce_class : Type :=
| K_VideoCompressionError
| K_FFmpegError
| K_ProcessingTimeoutError
| K_FileValidationError
| K_StorageError
| K_InvalidOptionsError.

(** An instance of [VideoCompressionError] or of one of its subclasses.
    [returncode] is the attribute [FFmpegError] adds ([None] elsewhere). *)
Record VideoCompressionError : Type := mkVCE {
  klass : vce_class;
  message : string;
  error_code : string;
  returncode : option Z
}.

(** [str(n)] for an [int]. *)
Definition str_of_int (n : Z) : string := NilZero.string_of_int (Z.to_int n).

Definition FFmpegError (message : string) (returncode : option Z) :=
  mkVCE K_FFmpegError message "FFMPEG_ERROR" returncode.

Definition ProcessingTimeoutError (timeout : Z) :=
  mkVCE K_ProcessingTimeoutError
        ("Processing timeout after " +:+ str_of_int timeout +:+ " seconds")
        "PROCESSING_TIMEOUT" None.

Definition FileValidationError (message : string) :=
  mkVCE K_FileValidationError message "FILE_VALIDATION_ERROR" None.

Definition StorageError (message : string) :=
  mkVCE K_StorageError message "STORAGE_ERROR" None.

Definition InvalidOptionsError (message : string) :=
  mkVCE K_InvalidOptionsError message "INVALID_OPTIONS_ERROR" None.

(** The library exceptions the code meets. *)
Inductive builtin_kind : Type :=
| FileNotFoundError
| TimeoutExpired
| JSONDecodeError
| TypeError
| AttributeError
| ValueError
| OverflowError
| KeyError
| OtherError.

(** Exceptions derived from [Exception]. *)
Inductive exn : Type :=
| Custom (e : VideoCompressionError)
| HTTPException (status_code : Z) (detail : string)
| Builtin (k : builtin_kind) (text : string).

End Exceptions.

Import Exceptions.

(** ** Python values, the world and the exception monad *)

Module Py.

#[warnings="-register-all"]
Inductive pyval : Type :=
| PNone
| PBool (b : bool)
| PInt (z : Z)
| PFloat (f : spec_float)
| PStr (s : string)
| PList (l : list pyval)
| PDict (d : gmap string pyval).

(** Binary64 arithmetic of Python's [float]. *)
Definition prec : Z := 53.
Definition emax : Z := 1024.
Definition float_zero : spec_float := S754_zero false.
Definition float_of_Z (z : Z) : spec_float := binary_normalize prec emax z 0 false.
Definition float_sub (a b : spec_float) : spec_float := SFsub prec emax a b.

(** What the operating system did on behalf of the service. *)
Inductive os_event : Type :=
| EvSpawn (cmd : list string)
| EvWait (cmd : list string)
| EvKill (cmd : list string).

(** How waiting for a spawned command ends. *)
Inductive wait_outcome : Type :=
| TimesOut
| WaitRaises (k : builtin_kind) (text : string)
| Exited (returncode : Z) (stdout stderr : string).

(** The files of the machine (path to size in bytes), the process events
    so far and the number of clock readings taken. *)
Record world : Type := mkWorld {
  files : gmap string Z;
  events : list os_event;
  ticks : nat
}.

(** What the code cannot decide by itself. *)
Record Env : Type := mkEnv {
  (** [uuid.uuid4().hex] *)
  uuid4_hex : string;
  (** the [n]-th reading of [time.time()] *)
  time_at : nat -> spec_float;
  (** the exception that spawning a command raises, if any (a missing
      executable gives [FileNotFoundError]) *)
  os_spawn : list string -> gmap string Z -> option (builtin_kind * string);
  (** the behaviour of a spawned command on the current files, waited for
      with a timeout in seconds: how the wait ends, and the files once
      the command has ended or has been killed *)
  os_wait : list string -> Z -> gmap string Z -> wait_outcome * gmap string Z;
  (** [json.loads]; [None] stands for [JSONDecodeError] *)
  json_loads : string -> option pyval;
  (** [float(s)] for a [str]; [None] stands for [ValueError] *)
  float_of_str : string -> option spec_float;
  (** the interpreter's wording of an error it raises itself *)
  exc_text : builtin_kind -> string;
  (** [str(e)] for an [HTTPException] *)
  http_str : Z -> string -> string;
  (** the name [tempfile] draws for a new file, before the suffix *)
  tmp_basename : string;
  (** [magic.Magic(mime=True).from_file]; [None] when it raises *)
  mime_from_file : string -> option string;
  (** the fields pydantic reads from the options, after its type
      coercion and before the validators of [app/models.py]; [None] when
      the coercion fails *)
  pydantic_fields : pyval -> option (list string * string);
  (** pydantic's coercion of a value to [Optional[str]] *)
  pydantic_optional_str : pyval -> option (option string);
  (** [CloudStorageService.upload_and_get_url]: the message of the
      [StorageError] it raises, or the signed URL and its expiry *)
  storage_upload : string -> string -> string + (string * Z);
  (** [s.lower()], which follows the Unicode case tables *)
  str_lower : string -> string;
  (** the exception [os.remove] raises for a file that is there, if any
      (a directory that cannot be written, a file in use) *)
  remove_error : string -> gmap string Z -> option (builtin_kind * string)
}.

Inductive result (A : Type) : Type :=
| Ok (a : A)
| Raise (e : exn).
Arguments Ok {A} a.
Arguments Raise {A} e.

Definition M (A : Type) : Type := world -> result A * world.

Definition ret {A} (a : A) : M A := fun w => (Ok a, w).

Definition raise {A} (e : exn) : M A := fun w => (Raise e, w).

Definition bind {A B} (m : M A) (k : A -> M B) : M B :=
  fun w =>
    match m w with
    | (Ok a, w') => k a w'
    | (Raise e, w') => (Raise e, w')
    end.

(** [try: m except Exception as e: handler e] *)
Definition try_except {A} (m : M A) (handler : exn -> M A) : M A :=
  fun w =>
    match m w with
    | (Ok a, w') => (Ok a, w')
    | (Raise e, w') => handler e w'
    end.

Definition modify (f : world -> world) : M unit := fun w => (Ok tt, f w).

Definition set_files (fs : gmap string Z) (w : world) : world :=
  mkWorld fs (events w) (ticks w).

Definition log_event (ev : os_event) (w : world) : world :=
  mkWorld (files w) (events w ++ [ev]) (ticks w).

End Py.

Import Py.

Declare Scope py_scope.
Delimit Scope py_scope with py.
Notation "x <- m ;; k" := (bind m (fun x => k))
  (at level 100, m at next level, right associativity) : py_scope.
Notation "m ;;; k" := (bind m (fun _ => k))
  (at level 100, right associativity) : py_scope.
Local Open Scope py_scope.

(** ** Interpreter and library primitives *)

Module Builtins.

Section WithEnv.

Variable env : Env.

Definition type_error {A} : M A := raise (Builtin TypeError (exc_text env TypeError)).
Definition attribute_error {A} : M A :=
  raise (Builtin AttributeError (exc_text env AttributeError)).

(** [str(e)] *)
Definition str_exn (e : exn) : string :=
  match e with
  | Custom c => message c
  | HTTPException status_code detail => http_str env status_code detail
  | Builtin _ text => text
  end.

(** [time.time()] *)
Definition time_time : M spec_float :=
  fun w => (Ok (time_at env (ticks w)), mkWorld (files w) (events w) (S (ticks w))).

(** [os.path.exists(path)] *)
Definition os_path_exists (path : string) : M bool :=
  fun w => (Ok (bool_decide (is_Some (files w !! path))), w).

(** [os.path.getsize(path)] *)
Definition os_path_getsize (path : string) : M Z :=
  fun w =>
    match files w !! path with
    | Some size => (Ok size, w)
    | None => (Raise (Builtin FileNotFoundError (exc_text env FileNotFoundError)), w)
    end.

(** [os.remove(path)] *)
Definition os_remove (path : string) : M unit :=
  fun w =>
    match files w !! path with
    | Some _ =>
        match remove_error env path (files w) with
        | Some (k, text) => (Raise (Builtin k text), w)
        | None => (Ok tt, set_files (delete path (files w)) w)
        end
    | None => (Raise (Builtin FileNotFoundError (exc_text env FileNotFoundError)), w)
    end.

(** [key in x] for a string [key] *)
Definition py_contains (key : string) (x : pyval) : M bool :=
  match x with
  | PDict d => ret (bool_decide (is_Some (d !! key)))
  | PList l =>
      ret (existsb (fun v => match v with PStr s => String.eqb s key | _ => false end) l)
  | PStr s => ret (str_in key s)
  | _ => type_error
  end.

(** [x[key]] for a string [key] *)
Definition py_getitem (x : pyval) (key : string) : M pyval :=
  match x with
  | PDict d =>
      match d !! key with
      | Some v => ret v
      | None => raise (Builtin KeyError (exc_text env KeyError))
      end
  | _ => type_error
  end.

(** [x.get(key, default)] *)
Definition py_get (x : pyval) (key : string) (default : pyval) : M pyval :=
  match x with
  | PDict d => ret (match d !! key with Some v => v | None => default end)
  | _ => attribute_error
  end.

(** [float(x)] *)
Definition py_float (x : pyval) : M spec_float :=
  match x with
  | PFloat f => ret f
  | PInt z =>
      match float_of_Z z with
      | S754_infinity _ => raise (Builtin OverflowError (exc_text env OverflowError))
      | f => ret f
      end
  | PBool b => ret (float_of_Z (if b then 1 else 0))
  | PStr s =>
      match float_of_str env s with
      | Some f => ret f
      | None => raise (Builtin ValueError (exc_text env ValueError))
      end
  | _ => type_error
  end.

(** The number of code points of a [str] given by its UTF-8 bytes: the
    bytes that are not continuation bytes. *)
Fixpoint utf8_len (s : string) : Z :=
  match s with
  | EmptyString => 0
  | String c s' =>
      (if (Z.land (Z.of_nat (nat_of_ascii c)) 192 =? 128)%Z then 0 else 1) + utf8_len s'
  end%Z.

(** [len(x)] *)
Definition py_len (x : pyval) : M Z :=
  match x with
  | PList l => ret (Z.of_nat (length l))
  | PDict d => ret (Z.of_nat (size d))
  | PStr s => ret (utf8_len s)
  | _ => type_error
  end.

(** [subprocess.Popen(cmd, ...)] *)
Definition Popen (cmd : list string) : M unit :=
  fun w =>
    match os_spawn env cmd (files w) with
    | Some (k, text) => (Raise (Builtin k text), w)
    | None => (Ok tt, log_event (EvSpawn cmd) w)
    end.

(** [process.communicate(timeout=timeout)] for the process spawned from
    [cmd]: returns [(returncode, stdout, stderr)]. *)
Definition communicate (cmd : list string) (timeout : Z) : M (Z * string * string) :=
  fun w =>
    let '(outcome, fs) := os_wait env cmd timeout (files w) in
    let w' := set_files fs w in
    match outcome with
    | TimesOut => (Raise (Builtin TimeoutExpired (exc_text env TimeoutExpired)), w')
    | WaitRaises k text => (Raise (Builtin k text), w')
    | Exited returncode stdout stderr =>
        (Ok (returncode, stdout, stderr), log_event (EvWait cmd) w')
    end.

(** [process.kill()] *)
Definition kill (cmd : list string) : M unit := modify (log_event (EvKill cmd)).

(** [subprocess.run(cmd, capture_output=True, text=True, timeout=timeout)]:
    when the wait fails (by the timeout or otherwise) the library kills
    the child, waits for it and raises again. *)
Definition subprocess_run (cmd : list string) (timeout : Z) : M (Z * string * string) :=
  Popen cmd ;;;
  try_except (communicate cmd timeout)
    (fun e => kill cmd ;;; modify (log_event (EvWait cmd)) ;;; raise e).

End WithEnv.

End Builtins.

Import Builtins.

(** ** [app/services/ffmpeg_service.py]: [FFmpegService] *)

Module FFmpegService.

(** The [timeout=10] of the probe, in seconds. *)
Definition PROBE_TIMEOUT : Z := 10.

(** The command of the probe for [file_path]. *)
Definition probe_cmd (file_path : string) : list string :=
  [ "ffprobe"; "-v"; "quiet"; "-print_format"; "json";
    "-show_format"; "-show_streams"; file_path ].

Definition _build_ffmpeg_command
  (input_path output_path : string) (ffmpeg_args : list string) : list string :=
  let cmd := ["ffmpeg"; "-i"; input_path] in
  let cmd := match ffmpeg_args with [] => cmd | _ => cmd ++ ffmpeg_args end in
  let cmd :=
    if negb (existsb (fun arg => startswith arg "-c:v" || String.eqb arg "-vcodec")
                     ffmpeg_args)
    then cmd ++ ["-c:v"; "libx264"] else cmd in
  let cmd :=
    if negb (existsb (fun arg => String.eqb arg "-crf") ffmpeg_args)
    then cmd ++ ["-crf"; "23"] else cmd in
  cmd ++ ["-y"; output_path].

Section WithEnv.

Variable env : Env.

Definition _generate_output_path (output_format : string) : string :=
  let filename := "compressed_" +:+ uuid4_hex env +:+ "." +:+ output_format in
  os_path_join TEMP_DIR filename.

Definition _execute_ffmpeg (cmd : list string) : M unit :=
  try_except
    (Popen env cmd ;;;
     out <- try_except (communicate env cmd MAX_PROCESSING_TIME)
              (fun e =>
                 match e with
                 | Builtin TimeoutExpired _ =>
                     kill cmd ;;;
                     raise (Custom (ProcessingTimeoutError MAX_PROCESSING_TIME))
                 | _ => raise e
                 end) ;;
     let '(returncode, stdout, stderr) := out in
     if negb (returncode =? 0)%Z then
       let error_message := "FFmpeg failed: " +:+ stderr in
       raise (Custom (FFmpegError error_message (Some returncode)))
     else ret tt)
    (fun e =>
       match e with
       | Builtin FileNotFoundError _ =>
           raise (Custom (FFmpegError "FFmpeg not found. Please install ffmpeg." None))
       | Custom (mkVCE (K_ProcessingTimeoutError | K_FFmpegError) _ _ _) => raise e
       | _ =>
           raise (Custom (FFmpegError
                            ("Unexpected error during FFmpeg execution: " +:+ str_exn env e)
                            None))
       end).

Definition error_info (text : string) : pyval :=
  PDict {[ "error" := PStr text ]}.

Definition _get_video_info (file_path : string) : M pyval :=
  try_except
    (let cmd := probe_cmd file_path in
     result <- subprocess_run env cmd PROBE_TIMEOUT ;;
     let '(returncode, stdout, _) := result in
     if negb (returncode =? 0)%Z then ret (error_info "Could not get video info")
     else
       info <- match json_loads env stdout with
               | Some v => ret v
               | None => raise (Builtin JSONDecodeError (exc_text env JSONDecodeError))
               end ;;
       file_size <- os_path_getsize env file_path ;;
       has_format <- py_contains env "format" info ;;
       df <- (if has_format : bool then
                fmt <- py_getitem env info "format" ;;
                d <- py_get env fmt "duration" (PInt 0) ;;
                duration <- py_float env d ;;
                format_name <- py_get env fmt "format_name" (PStr "unknown") ;;
                ret (PFloat duration, format_name)
              else ret (PNone, PNone)) ;;
       streams <- py_get env info "streams" (PList []) ;;
       n <- py_len env streams ;;
       ret (PDict (<[ "file_size" := PInt file_size ]>
                  (<[ "duration" := fst df ]>
                  (<[ "format" := snd df ]>
                  (<[ "streams" := PInt n ]> ∅))))))
    (fun e => ret (error_info ("Failed to get video info: " +:+ str_exn env e))).

Definition compress_video
  (input_path : string) (ffmpeg_args : list string) (output_format : string)
  : M (string * pyval) :=
  let '(is_valid, error_msg) := validate_options ffmpeg_args in
  if negb is_valid then raise (Custom (InvalidOptionsError error_msg))
  else
    let output_path := _generate_output_path output_format in
    let cmd := _build_ffmpeg_command input_path output_path ffmpeg_args in
    input_info <- _get_video_info input_path ;;
    start_time <- time_time env ;;
    _execute_ffmpeg cmd ;;;
    end_time <- time_time env ;;
    let processing_time := float_sub end_time start_time in
    output_info <- _get_video_info output_path ;;
    let metadata :=
      PDict (<[ "processing_time" := PFloat processing_time ]>
            (<[ "input_info" := input_info ]>
            (<[ "output_info" := output_info ]>
            (<[ "ffmpeg_args" := PList (map PStr ffmpeg_args) ]>
            (<[ "command" := PStr (join " " cmd) ]> ∅))))) in
    ret (output_path, metadata).

End WithEnv.

End FFmpegService.

Import FFmpegService.

(** ** [app/models.py] *)

Module Models.

Record CompressionOptions : Type := mkCompressionOptions {
  ffmpeg_args : list string;
  output_format : string
}.

Definition allowed_formats : list string := ["mp4"; "avi"; "mov"; "mkv"; "webm"].

(** The two validators of [CompressionOptions]; [None] stands for the
    [ValueError] either raises. *)
Definition validate_fields (v : list string) (fmt : string) : option CompressionOptions :=
  if (20 <? length v)%nat then None
  else if negb (list_in fmt allowed_formats) then None
  else Some (mkCompressionOptions v fmt).

Record FileInfo : Type := mkFileInfo {
  original_size : Z;
  compressed_size : Z;
  compression_ratio : spec_float;
  duration : option spec_float;
  original_format : option string
}.

Record CompressionResponse : Type := mkCompressionResponse {
  status : string;
  download_url : string;
  expires_at : Z;
  processing_time : spec_float;
  file_info : FileInfo
}.

End Models.

Import Models.

(** ** [app/main.py]: the request handler *)

Module Main.

(** The uploaded file: its name, the [size] attribute when it is set, and
    the length of the content [read()] returns ([None] when it raises). *)
Record UploadFile : Type := mkUploadFile {
  filename : string;
  size : option Z;
  content : option Z
}.

(** What [s.lower()] gives on ASCII text: the letters A to Z are
    lowered. *)
Fixpoint ascii_lower (s : string) : string :=
  match s with
  | EmptyString => EmptyString
  | String c s' =>
      let n := nat_of_ascii c in
      String (if (65 <=? n)%nat && (n <=? 90)%nat then ascii_of_nat (n + 32) else c)
             (ascii_lower s')
  end.

(** The extension [os.path.splitext(p)[1]]: from the last dot of the last
    path component on, unless only dots come before it in the component. *)
Fixpoint ext_from (seen_other : bool) (s : string) : string :=
  match s with
  | EmptyString => EmptyString
  | String c s' =>
      if Ascii.eqb c "/" then ext_from false s'
      else
        let later := ext_from (seen_other || negb (Ascii.eqb c ".")) s' in
        if str_in "/" s' then later
        else if negb (String.eqb later "") then later
        else if Ascii.eqb c "." && seen_other then s
        else EmptyString
  end.

Definition splitext_ext (p : string) : string := ext_from false p.

Definition video_types : list string :=
  [ "video/mp4"; "video/avi"; "video/quicktime";
    "video/x-msvideo"; "video/x-matroska"; "video/webm" ].

(** The local variables the [finally] block reads. *)
Record locals : Type := mkLocals {
  input_file_path : option string;
  output_file_path : option string
}.

Section WithEnv.

Variable env : Env.

Definition validate_file_size (file : UploadFile) : M bool :=
  match size file with
  | Some n =>
      if negb (n =? 0)%Z && (MAX_FILE_SIZE <? n)%Z
      then raise (HTTPException 413 "File size too large. Maximum: 200MB")
      else ret true
  | None => ret true
  end.

Definition validate_file_extension (filename : string) : M bool :=
  if String.eqb filename "" then raise (HTTPException 400 "Filename is required")
  else
    let ext := splitext_ext (str_lower env filename) in
    if negb (list_in ext ALLOWED_EXTENSIONS)
    then raise (HTTPException 400
                  ("File extension not allowed. Allowed: "
                   +:+ "['.mp4', '.avi', '.mov', '.mkv', '.wmv', '.flv', "
                   +:+ "'.webm', '.m4v', '.3gp', '.ogv']"))
    else ret true.

Definition validate_file_type (file_path : string) : M bool :=
  try_except
    (file_type <- match mime_from_file env file_path with
                  | Some t => ret t
                  | None => raise (Builtin OtherError (exc_text env OtherError))
                  end ;;
     if negb (existsb (fun video_type => str_in video_type file_type) video_types)
     then raise (HTTPException 400 ("Invalid video file type: " +:+ file_type))
     else ret tt)
    (fun e => raise (HTTPException 400
                       ("File type validation failed: " +:+ str_exn env e))) ;;;
  ret true.

(** [NamedTemporaryFile(delete=False, ...)] creates the file at once; the
    content is written before the name is returned. *)
Definition save_upload_file (upload_file : UploadFile) : M string :=
  try_except
    (let suffix := splitext_ext (filename upload_file) in
     let name := os_path_join TEMP_DIR (tmp_basename env +:+ suffix) in
     modify (fun w => set_files (<[ name := 0%Z ]> (files w)) w) ;;;
     match content upload_file with
     | Some n =>
         modify (fun w => set_files (<[ name := n ]> (files w)) w) ;;;
         ret name
     | None => raise (Builtin OtherError (exc_text env OtherError))
     end)
    (fun e => raise (Custom (FileValidationError
                               ("Failed to save uploaded file: " +:+ str_exn env e)))).

(** The [try] inside the handler that reads the options. *)
Definition parse_options (options : string) : M CompressionOptions :=
  match json_loads env options with
  | None => raise (HTTPException 400 "Invalid JSON in options")
  | Some options_dict =>
      match pydantic_fields env options_dict with
      | Some (v, fmt) =>
          match validate_fields v fmt with
          | Some o => ret o
          | None =>
              raise (HTTPException 400
                       ("Invalid options format: " +:+ exc_text env ValueError))
          end
      | None =>
          raise (HTTPException 400
                   ("Invalid options format: " +:+ exc_text env TypeError))
      end
  end.

(** The [except] clauses of the handler. *)
Definition status_of_error_code (code : string) : Z :=
  if String.eqb code "FILE_VALIDATION_ERROR" then 400
  else if String.eqb code "INVALID_OPTIONS_ERROR" then 400
  else if String.eqb code "PROCESSING_TIMEOUT" then 408
  else if String.eqb code "FFMPEG_ERROR" then 422
  else if String.eqb code "STORAGE_ERROR" then 500
  else 500.

Definition handle_exception (e : exn) : exn :=
  match e with
  | Custom c => HTTPException (status_of_error_code (error_code c)) (message c)
  | HTTPException _ _ => e
  | Builtin _ _ => HTTPException 500 ("Unexpected error: " +:+ str_exn env e)
  end.

(** The [finally] block: one round of the loop for [file_path], which
    is [None], or a string that counts as true when it is not empty. *)
Definition cleanup_one (file_path : option string) : M unit :=
  match file_path with
  | Some p =>
      if negb (String.eqb p "") then
        there <- os_path_exists p ;;
        if there : bool
        then try_except (os_remove env p) (fun _ => ret tt)
        else ret tt
      else ret tt
  | None => ret tt
  end.

Definition cleanup (l : locals) : M unit :=
  cleanup_one (input_file_path l) ;;;
  cleanup_one (output_file_path l).

(** [d.get(k1, {}).get(k2)] *)
Definition get2 (d : pyval) (k1 k2 : string) : M pyval :=
  inner <- py_get env d k1 (PDict ∅) ;;
  py_get env inner k2 PNone.

(** [a / b] for two [int]s that binary64 represents exactly. *)
Definition int_div (a b : Z) : spec_float :=
  SFdiv prec emax (float_of_Z a) (float_of_Z b).

(** The statements of the [try] block up to the assignment of
    [input_file_path]. *)
Definition receive (file : UploadFile) (options : string)
  : M (CompressionOptions * string) :=
  compression_options <- parse_options options ;;
  validate_file_size file ;;;
  validate_file_extension (filename file) ;;;
  input_file_path <- save_upload_file file ;;
  ret (compression_options, input_file_path).

(** From there to the assignment of [output_file_path]. *)
Definition transcode (input_file_path : string) (o : CompressionOptions)
  : M (Z * spec_float * (string * pyval)) :=
  validate_file_type input_file_path ;;;
  original_size <- os_path_getsize env input_file_path ;;
  start_time <- time_time env ;;
  out <- FFmpegService.compress_video env input_file_path
           (ffmpeg_args o) (output_format o) ;;
  ret (original_size, start_time, out).

(** From there to the [return]. *)
Definition deliver (o : CompressionOptions) (original_size : Z)
  (start_time : spec_float) (output_file_path : string) (metadata : pyval)
  : M CompressionResponse :=
  end_time <- time_time env ;;
  let processing_time := float_sub end_time start_time in
  compressed_size <- os_path_getsize env output_file_path ;;
  let compression_ratio :=
    if (0 <? original_size)%Z then int_div compressed_size original_size
    else float_zero in
  up <- match storage_upload env output_file_path ("video/" +:+ output_format o) with
        | inl text => raise (Custom (StorageError text))
        | inr up => ret up
        end ;;
  d <- get2 metadata "input_info" "duration" ;;
  duration <- match d with
              | PNone => ret None
              | v => f <- py_float env v ;; ret (Some f)
              end ;;
  fmt <- get2 metadata "input_info" "format" ;;
  original_format <- match pydantic_optional_str env fmt with
                     | Some x => ret x
                     | None => raise (Builtin ValueError (exc_text env ValueError))
                     end ;;
  let file_info :=
    mkFileInfo original_size compressed_size compression_ratio
               duration original_format in
  ret (mkCompressionResponse "success" (fst up) (snd up) processing_time file_info).

(** The handler of [POST /api/v1/compress]: the [try] block with the
    values of [input_file_path] and [output_file_path] at the moment it
    is left, then the [except] clauses and the [finally] block. *)
Definition compress_video (file : UploadFile) (options : string)
  : M CompressionResponse :=
  fun w0 =>
    let '(r, l, w) :=
      match receive file options w0 with
      | (Raise e, w1) => (Raise e, mkLocals None None, w1)
      | (Ok (o, input), w1) =>
          match transcode input o w1 with
          | (Raise e, w2) => (Raise e, mkLocals (Some input) None, w2)
          | (Ok (original_size, start_time, (output, metadata)), w2) =>
              let '(r, w3) := deliver o original_size start_time output metadata w2 in
              (r, mkLocals (Some input) (Some output), w3)
          end
      end in
    let r' := match r with
              | Ok a => Ok a
              | Raise e => Raise (handle_exception e)
              end in
    (r', snd (cleanup l w)).

End WithEnv.

End Main.
Import Main.

(** ** Predicates the statements use *)

Module Props.

(** No token of the list contains a forbidden substring. *)
Definition forbidden_free (args : list string) : bool :=
  forallb (fun t => forallb (fun p => negb (str_in p t)) FFMPEG_FORBIDDEN_PATTERNS) args.

(** The check the loop of [validate_options] applies to one token. *)
Definition token_passes (arg : string) : bool :=
  if startswith arg "-" then list_in arg FFMPEG_ALLOWED_OPTIONS
  else negb (has_dangerous_char arg) || _is_safe_value arg.

(** The values the specification lists as accepted. *)
Definition accepted_examples : list string :=
  ["23"; "libx264"; "medium"; "1920x1080"; "scale=1920:1080"].

Definition no_space (p : string) : bool :=
  str_forall (fun c => negb (Ascii.eqb c space)) p.

(** A character that is none of [dangerous_chars]. *)
Definition harmless (c : ascii) : bool :=
  negb (list_in (String c EmptyString) dangerous_chars).

(** The number of tokens of [l] equal to [x]. *)
Definition count (x : string) (l : list string) : nat :=
  length (List.filter (String.eqb x) l).

(** A token that holds a path separator. *)
Definition is_path (t : string) : bool := str_in "/" t.




(** A later event waits for the process spawned from [cmd]. *)
Definition waited (cmd : list string) (evs : list os_event) : bool :=
  existsb (fun ev => match ev with
                     | EvWait c => bool_decide (c = cmd)
                     | _ => false
                     end) evs.

(** The commands whose process was spawned and never waited for: killed
    or not, such a process stays in the process table. *)
Fixpoint unreaped (evs : list os_event) : list (list string) :=
  match evs with
  | [] => []
  | EvSpawn cmd :: rest =>
      if waited cmd rest then unreaped rest else cmd :: unreaped rest
  | _ :: rest => unreaped rest
  end.

(** The processes a kill was sent to. *)
Definition killed (evs : list os_event) : list (list string) :=
  List.flat_map (fun ev => match ev with EvKill cmd => [cmd] | _ => [] end) evs.

(** Command assembly as the specification words it: a default pair is
    added when the flag name itself ([-c:v] or its other spelling
    [-vcodec], and [-crf]) is absent from the validated tokens. *)
Definition build_spec (input_path output_path : string) (validated : list string)
  : list string :=
  ["ffmpeg"; "-i"; input_path] ++ validated
  ++ (if list_in "-c:v" validated || list_in "-vcodec" validated
      then [] else ["-c:v"; "libx264"])
  ++ (if list_in "-crf" validated then [] else ["-crf"; "23"])
  ++ ["-y"; output_path].

(** The entry [k] of a dictionary, when it is there. *)
Definition field (d : pyval) (k : string) : option pyval :=
  match d with
  | PDict m => m !! k
  | _ => None
  end.

(** The inspection tool cannot be spawned (it is missing), does not end
    within the timeout of the probe, fails while it is waited for, exits
    with a nonzero status, or prints what [json.loads] rejects. *)
Definition probe_fails (env : Env) (file_path : string) (fs : gmap string Z) : Prop :=
  match os_spawn env (probe_cmd file_path) fs with
  | Some _ => True
  | None =>
      match fst (os_wait env (probe_cmd file_path) PROBE_TIMEOUT fs) with
      | TimesOut | WaitRaises _ _ => True
      | Exited returncode stdout _ =>
          returncode <> 0%Z \/ json_loads env stdout = None
      end
  end.

End Props.

Import Props.

(** ** Concrete environments *)

Module Scenarios.

(** A machine on which every command is found and exits with status 0
    without output, nothing parses as JSON but the empty options ["{}"],
    and storage accepts every upload. *)
Definition base_env : Env :=
  mkEnv "0123456789abcdef0123456789abcdef"
        (fun n => float_of_Z (Z.of_nat n))
        (fun _ _ => None)
        (fun _ _ fs => (Exited 0 "" "", fs))
        (fun s => if String.eqb s "{}" then Some (PDict ∅) else None)
        (fun _ => None)
        (fun _ => "error")
        (fun _ detail => detail)
        "tmpab12cd34"
        (fun _ => Some "video/mp4")
        (fun _ => Some ([], "mp4"))
        (fun v => match v with
                  | PNone => Some None
                  | PStr x => Some (Some x)
                  | _ => None
                  end)
        (fun _ _ => inr ("https://storage.example/signed", 3600%Z))
        ascii_lower
        (fun _ _ => None).

Definition with_spawn
  (f : list string -> gmap string Z -> option (builtin_kind * string)) (e : Env) : Env :=
  mkEnv (uuid4_hex e) (time_at e) f (os_wait e) (json_loads e) (float_of_str e)
        (exc_text e) (http_str e) (tmp_basename e) (mime_from_file e)
        (pydantic_fields e) (pydantic_optional_str e) (storage_upload e)
        (str_lower e) (remove_error e).

Definition with_wait
  (f : list string -> Z -> gmap string Z -> wait_outcome * gmap string Z) (e : Env) : Env :=
  mkEnv (uuid4_hex e) (time_at e) (os_spawn e) f (json_loads e) (float_of_str e)
        (exc_text e) (http_str e) (tmp_basename e) (mime_from_file e)
        (pydantic_fields e) (pydantic_optional_str e) (storage_upload e)
        (str_lower e) (remove_error e).

Definition with_json (f : string -> option pyval) (e : Env) : Env :=
  mkEnv (uuid4_hex e) (time_at e) (os_spawn e) (os_wait e) f (float_of_str e)
        (exc_text e) (http_str e) (tmp_basename e) (mime_from_file e)
        (pydantic_fields e) (pydantic_optional_str e) (storage_upload e)
        (str_lower e) (remove_error e).

Definition with_storage (f : string -> string -> string + (string * Z)) (e : Env) : Env :=
  mkEnv (uuid4_hex e) (time_at e) (os_spawn e) (os_wait e) (json_loads e) (float_of_str e)
        (exc_text e) (http_str e) (tmp_basename e) (mime_from_file e)
        (pydantic_fields e) (pydantic_optional_str e) f
        (str_lower e) (remove_error e).

Definition with_pydantic (f : pyval -> option (list string * string)) (e : Env) : Env :=
  mkEnv (uuid4_hex e) (time_at e) (os_spawn e) (os_wait e) (json_loads e) (float_of_str e)
        (exc_text e) (http_str e) (tmp_basename e) (mime_from_file e)
        f (pydantic_optional_str e) (storage_upload e)
        (str_lower e) (remove_error e).

Definition with_remove
  (f : string -> gmap string Z -> option (builtin_kind * string)) (e : Env) : Env :=
  mkEnv (uuid4_hex e) (time_at e) (os_spawn e) (os_wait e) (json_loads e) (float_of_str e)
        (exc_text e) (http_str e) (tmp_basename e) (mime_from_file e)
        (pydantic_fields e) (pydantic_optional_str e) (storage_upload e)
        (str_lower e) f.

Definition is_ffmpeg (cmd : list string) : bool :=
  match cmd with
  | exe :: _ => String.eqb exe "ffmpeg"
  | [] => false
  end.

(** No executable is installed. *)
Definition missing_tools_env : Env :=
  with_spawn (fun _ _ => Some (FileNotFoundError, "No such file or directory")) base_env.

(** The transcoder exits with status 1 after it has begun to write its
    output file (the last token of its command). *)
Definition failing_ffmpeg_env : Env :=
  with_wait
    (fun cmd _ fs =>
       if is_ffmpeg cmd
       then (Exited 1 "" "Conversion failed!", <[ List.last cmd "" := 10%Z ]> fs)
       else (Exited 0 "" "", fs))
    base_env.

(** The transcoder runs into the timeout after it has begun to write
    its output file. *)
Definition slow_ffmpeg_env : Env :=
  with_wait
    (fun cmd _ fs =>
       if is_ffmpeg cmd
       then (TimesOut, <[ List.last cmd "" := 10%Z ]> fs)
       else (Exited 0 "" "", fs))
    base_env.

(** The transcoder writes its output file and exits with status 0. *)
Definition writing_ffmpeg_env : Env :=
  with_wait
    (fun cmd _ fs =>
       if is_ffmpeg cmd
       then (Exited 0 "" "", <[ List.last cmd "" := 10%Z ]> fs)
       else (Exited 0 "" "", fs))
    base_env.

(** The transcoder succeeds and the upload fails. *)
Definition failing_storage_env : Env :=
  with_storage
    (fun _ _ => inl "Failed to upload file to Cloud Storage: unavailable")
    writing_ffmpeg_env.

(** The inspection tool is not installed; the transcoder is. *)
Definition missing_probe_env : Env :=
  with_spawn
    (fun cmd _ =>
       if is_ffmpeg cmd then None
       else Some (FileNotFoundError, "No such file or directory: 'ffprobe'"))
    base_env.

(** The temporary directory refuses the removal of its files. *)
Definition locked_tmp_env : Env :=
  with_remove (fun _ _ => Some (OtherError, "[Errno 13] Permission denied")) base_env.

(** The probe prints a document whose format section has no entry. *)
Definition bare_format_env : Env :=
  with_json (fun _ => Some (PDict {[ "format" := PDict ∅ ]})) base_env.

Definition empty_world : world := mkWorld ∅ [] 0.

Definition one_file_world (path : string) (n : Z) : world :=
  mkWorld {[ path := n ]} [] 0.

Definition clip : UploadFile := mkUploadFile "clip.mp4" (Some 1000%Z) (Some 1000%Z).

(** An upload whose content cannot be read. *)
Definition broken_clip : UploadFile := mkUploadFile "clip.mp4" (Some 1000%Z) None.

End Scenarios.

Import Scenarios.

(** ** Further predicates *)

Module MoreProps.

(** The check of one token together with the denylist scan of it. *)
Definition token_accepted (t : string) : bool := fst (validate_options [t]).

(** The options of a command: what stands between [ffmpeg -i input] and
    [-y output]. *)
Definition options_of (cmd : list string) : list string :=
  List.removelast (List.removelast (List.skipn 3 cmd)).

(** The command an event is about. *)
Definition event_cmd (ev : os_event) : list string :=
  match ev with
  | EvSpawn cmd | EvWait cmd | EvKill cmd => cmd
  end.

(** The events [w'] has after those of [w]. *)
Definition new_events (w w' : world) : list os_event :=
  List.skipn (length (events w)) (events w').

(** The keys of a dictionary. *)
Definition keys (d : pyval) : gset string :=
  match d with
  | PDict m => dom m
  | _ => ∅
  end.

(** Every byte of [s] is an ASCII character. *)
Definition is_ascii (s : string) : bool :=
  str_forall (fun c => (nat_of_ascii c <? 128)%nat) s.

(** A nonempty run of ASCII digits. *)
Definition digits1 (s : string) : bool :=
  negb (String.eqb s "") && str_forall is_digit s.

(** The events [w'] has more than [w] are all about commands of
    [allowed]. *)
Definition only_runs (allowed : list (list string)) (w w' : world) : Prop :=
  exists evs,
    events w' = events w ++ evs /\
    Forall (fun ev => In (event_cmd ev) allowed) evs.

(** The computation [m] leaves the observation [f] of the world as it
    was, whether it returns or raises. *)
Definition preserves {A T} (f : world -> T) (m : M A) : Prop :=
  forall w, f (snd (m w)) = f w.

(** The words of a regular expression. *)
Inductive lang : regex -> string -> Prop :=
| LEps : lang Eps ""
| LChr (c : ascii) : lang (Chr c) (String c "")
| LDigit (c : ascii) : is_digit c = true -> lang Digit (String c "")
| LCat (r1 r2 : regex) (s1 s2 : string) :
    lang r1 s1 -> lang r2 s2 -> lang (Cat r1 r2) (s1 +:+ s2)
| LAltL (r1 r2 : regex) (s : string) : lang r1 s -> lang (Alt r1 r2) s
| LAltR (r1 r2 : regex) (s : string) : lang r2 s -> lang (Alt r1 r2) s
| LStarNil (r : regex) : lang (Star r) ""
| LStarApp (r : regex) (s1 s2 : string) :
    lang r s1 -> lang (Star r) s2 -> lang (Star r) (s1 +:+ s2).

(** The words the safe patterns describe, without the newline that [$]
    lets follow them: an integer, a codec, a preset, a resolution, a
    scale filter. *)
Definition safe_word (w : string) : Prop :=
  digits1 w = true \/
  In w ["libx264"; "libx265"; "libvpx"; "aac"] \/
  In w ["ultrafast"; "superfast"; "veryfast"; "faster"; "fast"; "medium";
        "slow"; "slower"; "veryslow"] \/
  (exists a b, w = a +:+ "x" +:+ b /\ digits1 a = true /\ digits1 b = true) \/
  (exists a b, w = "scale=" +:+ a +:+ ":" +:+ b /\ digits1 a = true /\ digits1 b = true).

(** Whenever the computation [m] raises, the exception satisfies [P]. *)
Definition raises_only {A} (P : exn -> Prop) (m : M A) : Prop :=
  forall w e w', m w = (Raise e, w') -> P e.

(** What the [try] block of the handler can raise: an [HTTPException]
    only with status 400 or 413. *)
Definition body_exception (e : exn) : Prop :=
  match e with
  | HTTPException status_code _ => status_code = 400%Z \/ status_code = 413%Z
  | _ => True
  end.

End MoreProps.

Import MoreProps.

(** * Proofs *)

(** ** Substrings *)

Lemma prefix_empty (s : string) : String.prefix "" s = true.
Proof. destruct s; reflexivity. Qed.

Lemma prefix_cons (c d : ascii) (p s : string) :
  String.prefix (String c p) (String d s) = Ascii.eqb c d && String.prefix p s.
Proof.
  simpl. destruct (ascii_dec c d) as [->|Hne].
  - now rewrite Ascii.eqb_refl.
  - apply Ascii.eqb_neq in Hne. now rewrite Hne.
Qed.

Lemma prefix_app_l (p a b : string) :
  String.prefix p a = true -> String.prefix p (a +:+ b) = true.
Proof.
  revert a. induction p as [|c p IH]; intros a H.
  - apply prefix_empty.
  - destruct a as [|d a]; [discriminate|].
    change (String d a +:+ b) with (String d (a +:+ b)).
    rewrite prefix_cons in *. apply andb_true_iff in H as [-> H].
    simpl. now apply IH.
Qed.

Lemma str_in_unfold (p s : string) :
  str_in p s =
  String.prefix p s || match s with EmptyString => false | String _ s' => str_in p s' end.
Proof. destruct s; reflexivity. Qed.

Lemma str_in_app_l (p a b : string) :
  str_in p a = true -> str_in p (a +:+ b) = true.
Proof.
  induction a as [|d a IH]; intros H.
  - rewrite str_in_unfold in H. simpl in H. rewrite orb_false_r in H.
    destruct p; [|discriminate].
    rewrite str_in_unfold, prefix_empty. reflexivity.
  - change (String d a +:+ b) with (String d (a +:+ b)).
    rewrite str_in_unfold in H. rewrite str_in_unfold.
    apply orb_true_iff in H as [H|H]; apply orb_true_iff.
    + left. now apply (prefix_app_l p (String d a) b).
    + right. now apply IH.
Qed.

Lemma str_in_app_r (p a b : string) :
  str_in p b = true -> str_in p (a +:+ b) = true.
Proof.
  induction a as [|d a IH]; intros H; [exact H|].
  change (String d a +:+ b) with (String d (a +:+ b)).
  rewrite str_in_unfold. apply orb_true_iff. right. now apply IH.
Qed.

(** A token is a substring of the joined argument text. *)
Lemma str_in_join (p sep t : string) (l : list string) :
  In t l -> str_in p t = true -> str_in p (join sep l) = true.
Proof.
  unfold join. induction l as [|x l IH]; intros Hin H; [destruct Hin|].
  destruct l as [|y l].
  - destruct Hin as [->|[]]. exact H.
  - change (String.concat sep (x :: y :: l))
      with (x +:+ sep +:+ String.concat sep (y :: l)).
    destruct Hin as [->|Hin].
    + now apply str_in_app_l.
    + apply str_in_app_r, str_in_app_r. now apply IH.
Qed.

Lemma prefix_before_space (p a b : string) :
  no_space p = true ->
  String.prefix p (a +:+ String space b) = true -> String.prefix p a = true.
Proof.
  revert a. induction p as [|c p IH]; intros a Hp H.
  - apply prefix_empty.
  - unfold no_space in Hp. simpl in Hp. apply andb_true_iff in Hp as [Hc Hp].
    destruct a as [|d a].
    + change ("" +:+ String space b) with (String space b) in H.
      rewrite prefix_cons in H. apply andb_true_iff in H as [H _].
      rewrite H in Hc. discriminate.
    + change (String d a +:+ String space b) with (String d (a +:+ String space b)) in H.
      rewrite prefix_cons in *. apply andb_true_iff in H as [-> H].
      simpl. now apply IH.
Qed.

Lemma str_in_around_space (p a b : string) :
  no_space p = true ->
  str_in p (a +:+ String space b) = true -> str_in p a = true \/ str_in p b = true.
Proof.
  intros Hp. induction a as [|d a IH]; intros H.
  - change ("" +:+ String space b) with (String space b) in H.
    rewrite str_in_unfold in H. apply orb_true_iff in H as [H|H]; [|now right].
    left. rewrite str_in_unfold. apply orb_true_iff. left.
    now apply (prefix_before_space p "" b).
  - change (String d a +:+ String space b) with (String d (a +:+ String space b)) in H.
    rewrite str_in_unfold in H. apply orb_true_iff in H as [H|H].
    + left. rewrite str_in_unfold. apply orb_true_iff. left.
      now apply (prefix_before_space p (String d a) b).
    + destruct (IH H) as [H'|H']; [left|now right].
      rewrite str_in_unfold. apply orb_true_iff. now right.
Qed.

(** A pattern without a space that occurs in the joined text occurs in
    one of the tokens. *)
Lemma str_in_join_inv (p : string) (l : list string) :
  no_space p = true -> p <> "" ->
  str_in p (join " " l) = true -> exists t, In t l /\ str_in p t = true.
Proof.
  intros Hp Hne. unfold join. induction l as [|x l IH]; intros H.
  - destruct p; [congruence|discriminate].
  - destruct l as [|y l].
    + exists x. split; [now left|exact H].
    + change (String.concat " " (x :: y :: l))
        with (x +:+ String space (String.concat " " (y :: l))) in H.
      destruct (str_in_around_space _ _ _ Hp H) as [H'|H'].
      * exists x. split; [now left|exact H'].
      * destruct (IH H') as (t & Hin & Ht). exists t. split; [now right|exact Ht].
Qed.

Lemma forbidden_patterns_shape :
  Forall (fun p => no_space p = true /\ p <> "") FFMPEG_FORBIDDEN_PATTERNS.
Proof. repeat constructor; discriminate. Qed.

Lemma forbidden_free_spec (args : list string) :
  forbidden_free args = true <->
  forall t p, In t args -> In p FFMPEG_FORBIDDEN_PATTERNS -> str_in p t = false.
Proof.
  unfold forbidden_free. rewrite forallb_forall. split.
  - intros H t p Ht Hp. specialize (H t Ht). rewrite forallb_forall in H.
    specialize (H p Hp). now apply negb_true_iff in H.
  - intros H t Ht. apply forallb_forall. intros p Hp.
    apply negb_true_iff. now apply H.
Qed.

(** The denylist scan of the joined text finds nothing exactly when no
    token contains a forbidden substring. *)
Lemma scan_none_iff (args : list string) :
  find (fun forbidden => str_in forbidden (join " " args)) FFMPEG_FORBIDDEN_PATTERNS = None
  <-> forbidden_free args = true.
Proof.
  rewrite forbidden_free_spec. split.
  - intros Hf t p Ht Hp.
    destruct (str_in p t) eqn:E; [|reflexivity].
    pose proof (find_none _ _ Hf p Hp) as Hn. cbv beta in Hn.
    now rewrite (str_in_join p " " t args Ht E) in Hn.
  - intros H.
    destruct (find _ _) as [q|] eqn:E; [|reflexivity].
    apply find_some in E as [Hq Hs].
    pose proof forbidden_patterns_shape as Hshape.
    rewrite List.Forall_forall in Hshape. destruct (Hshape q Hq) as [Hns Hne].
    destruct (str_in_join_inv q args Hns Hne Hs) as (t & Ht & Hqt).
    now rewrite (H t q Ht Hq) in Hqt.
Qed.

(** ** Regular expressions: a match uses only the pattern's alphabet *)

Section Alphabet.

Variable P : ascii -> bool.
Hypothesis digits_ok : forall c, is_digit c = true -> P c = true.

Lemma dead_not_nullable (r : regex) : dead r = true -> nullable r = false.
Proof.
  induction r; simpl; intros H; try discriminate; try reflexivity.
  - apply orb_true_iff in H as [H|H].
    + now rewrite IHr1.
    + rewrite IHr2 by assumption. apply andb_false_r.
  - apply andb_true_iff in H as [H1 H2]. now rewrite IHr1, IHr2.
Qed.

Lemma dead_deriv (c : ascii) (r : regex) : dead r = true -> dead (deriv c r) = true.
Proof.
  induction r; simpl; intros H; try discriminate; try reflexivity.
  - apply orb_true_iff in H as [H|H].
    + rewrite (dead_not_nullable r1 H). simpl. now rewrite IHr1.
    + destruct (nullable r1); simpl; rewrite ?H, ?IHr2, ?orb_true_r by assumption;
        reflexivity.
  - apply andb_true_iff in H as [H1 H2]. now rewrite IHr1, IHr2.
Qed.

Lemma dead_no_match (s : string) : forall r, dead r = true -> matches r s = false.
Proof.
  induction s as [|c s IH]; intros r H; simpl.
  - now apply dead_not_nullable.
  - apply IH. now apply dead_deriv.
Qed.

Lemma alphabet_deriv (c : ascii) (r : regex) :
  alphabet_ok P r = true -> alphabet_ok P (deriv c r) = true.
Proof.
  induction r; simpl; intros H; try reflexivity.
  - now destruct (Ascii.eqb c c0).
  - now destruct (is_digit c).
  - apply andb_true_iff in H as [H1 H2].
    destruct (nullable r1); simpl; rewrite ?IHr1, ?IHr2, ?H2 by assumption; reflexivity.
  - apply andb_true_iff in H as [H1 H2]. now rewrite IHr1, IHr2.
  - now rewrite IHr, H.
Qed.

Lemma foreign_deriv_dead (c : ascii) (r : regex) :
  alphabet_ok P r = true -> P c = false -> dead (deriv c r) = true.
Proof.
  intros H Hc. induction r; simpl in *; try reflexivity.
  - destruct (Ascii.eqb c c0) eqn:E; [|reflexivity].
    apply Ascii.eqb_eq in E. subst. congruence.
  - destruct (is_digit c) eqn:E; [|reflexivity].
    rewrite (digits_ok c E) in Hc. discriminate.
  - apply andb_true_iff in H as [H1 H2].
    destruct (nullable r1); simpl; rewrite ?IHr1, ?IHr2 by assumption; reflexivity.
  - apply andb_true_iff in H as [H1 H2]. now rewrite IHr1, IHr2.
  - now rewrite IHr.
Qed.

Lemma matches_alphabet (s : string) :
  forall r, alphabet_ok P r = true -> matches r s = true -> str_forall P s = true.
Proof.
  induction s as [|c s IH]; intros r Hr Hm; [reflexivity|].
  simpl in *. destruct (P c) eqn:Hc.
  - simpl. apply (IH (deriv c r)); [now apply alphabet_deriv|exact Hm].
  - rewrite (dead_no_match s _ (foreign_deriv_dead c r Hr Hc)) in Hm. discriminate.
Qed.

End Alphabet.

Lemma digits_harmless (c : ascii) : is_digit c = true -> harmless c = true.
Proof.
  destruct c as [[] [] [] [] [] [] [] []]; vm_compute; intros H;
    first [reflexivity | discriminate H].
Qed.

Lemma str_in_char (c : ascii) (s : string) :
  str_in (String c "") s = true -> str_forall (fun d => negb (Ascii.eqb d c)) s = false.
Proof.
  induction s as [|d s IH]; intros H.
  - discriminate.
  - rewrite str_in_unfold, prefix_cons, prefix_empty, andb_true_r in H.
    simpl. apply orb_true_iff in H as [H|H].
    + rewrite Ascii.eqb_sym, H. reflexivity.
    + rewrite (IH H). apply andb_false_r.
Qed.

Lemma str_forall_impl (P Q : ascii -> bool) (s : string) :
  (forall c, P c = true -> Q c = true) ->
  str_forall P s = true -> str_forall Q s = true.
Proof.
  intros HPQ. induction s as [|c s IH]; simpl; [reflexivity|].
  intros H. apply andb_true_iff in H as [H1 H2]. now rewrite (HPQ c H1), IH.
Qed.

(** A string of harmless characters has no dangerous character. *)
Lemma harmless_not_dangerous (s : string) :
  str_forall harmless s = true -> has_dangerous_char s = false.
Proof.
  intros H. unfold has_dangerous_char.
  destruct (existsb _ _) eqn:E; [|reflexivity].
  apply existsb_exists in E as (ch & Hch & Hin).
  assert (exists c, ch = String c "" /\ list_in ch dangerous_chars = true)
    as (c & -> & Hd).
  { unfold dangerous_chars, chr in Hch. simpl in Hch.
    repeat (destruct Hch as [<-|Hch]; [eexists; split; reflexivity|]).
    destruct Hch. }
  apply str_in_char in Hin.
  rewrite (str_forall_impl harmless (fun d => negb (Ascii.eqb d c)) s) in Hin;
    [discriminate| |exact H].
  intros d Hd'. apply negb_true_iff. destruct (Ascii.eqb d c) eqn:E; [|reflexivity].
  apply Ascii.eqb_eq in E. subst d. unfold harmless in Hd'. rewrite Hd in Hd'.
  discriminate.
Qed.

(** No safe pattern accepts a value with a dangerous character. *)
Lemma safe_value_not_dangerous (value : string) :
  _is_safe_value value = true -> has_dangerous_char value = false.
Proof.
  intros H. apply harmless_not_dangerous.
  unfold _is_safe_value in H. apply existsb_exists in H as (r & Hr & Hm).
  apply (matches_alphabet harmless digits_harmless value _) in Hm; [exact Hm|].
  unfold safe_patterns in Hr. simpl in Hr.
  repeat (destruct Hr as [<-|Hr]; [vm_compute; reflexivity|]).
  destruct Hr.
Qed.

(** ** The token loop and the verdict of [validate_options] *)

Lemma check_tokens_cons (arg : string) (rest : list string) :
  check_tokens (arg :: rest) =
  if startswith arg "-" then
    if negb (list_in arg FFMPEG_ALLOWED_OPTIONS)
    then (false, "Option not allowed: " +:+ arg)
    else check_tokens rest
  else
    if has_dangerous_char arg then
      if negb (_is_safe_value arg)
      then (false, "Potentially dangerous value: " +:+ arg)
      else check_tokens rest
    else check_tokens rest.
Proof. reflexivity. Qed.

Lemma check_tokens_fst (args : list string) :
  fst (check_tokens args) = forallb token_passes args.
Proof.
  induction args as [|arg rest IH]; [reflexivity|].
  rewrite check_tokens_cons. cbn [forallb]. unfold token_passes at 1.
  destruct (startswith arg "-").
  - destruct (list_in arg FFMPEG_ALLOWED_OPTIONS); [exact IH|reflexivity].
  - destruct (has_dangerous_char arg); [|exact IH].
    destruct (_is_safe_value arg); [exact IH|reflexivity].
Qed.

Lemma check_tokens_accept (args : list string) :
  forallb token_passes args = true -> check_tokens args = (true, "Valid options").
Proof.
  induction args as [|arg rest IH]; [reflexivity|].
  rewrite check_tokens_cons. cbn [forallb]. unfold token_passes at 1.
  intros H. apply andb_true_iff in H as [H1 H2].
  destruct (startswith arg "-").
  - rewrite H1. now apply IH.
  - destruct (has_dangerous_char arg); [|now apply IH].
    cbn [negb orb] in H1. rewrite H1. now apply IH.
Qed.

(** The loop stops at the first flag that is off the allowlist when the
    tokens before it pass. *)
Lemma check_tokens_first_flag (pre post : list string) (f : string) :
  forallb token_passes pre = true ->
  startswith f "-" = true -> list_in f FFMPEG_ALLOWED_OPTIONS = false ->
  check_tokens (pre ++ f :: post) = (false, "Option not allowed: " +:+ f).
Proof.
  intros Hpre Hf Hna. induction pre as [|arg rest IH].
  - cbn [app]. rewrite check_tokens_cons, Hf, Hna. reflexivity.
  - cbn [forallb] in Hpre. apply andb_true_iff in Hpre as [H1 H2].
    change ((arg :: rest) ++ f :: post) with (arg :: (rest ++ f :: post)).
    rewrite check_tokens_cons. unfold token_passes in H1.
    destruct (startswith arg "-").
    + rewrite H1. now apply IH.
    + destruct (has_dangerous_char arg); [|now apply IH].
      cbn [negb orb] in H1. rewrite H1. now apply IH.
Qed.

Lemma validate_options_fst (args : list string) :
  fst (validate_options args) =
  match args with
  | [] => true
  | _ => forbidden_free args && forallb token_passes args
  end.
Proof.
  destruct args as [|a l]; [reflexivity|].
  unfold validate_options. cbv zeta.
  destruct (forbidden_free (a :: l)) eqn:F.
  - apply scan_none_iff in F. rewrite F. apply check_tokens_fst.
  - destruct (find _ _) as [q|] eqn:E; [reflexivity|].
    apply scan_none_iff in E. congruence.
Qed.

(** What acceptance says about each token. *)
Lemma accepted_tokens (args : list string) :
  fst (validate_options args) = true -> forallb token_passes args = true.
Proof.
  rewrite validate_options_fst. destruct args; [reflexivity|].
  intros H. now apply andb_true_iff in H as [_ H].
Qed.

Lemma token_passes_shape (t : string) :
  token_passes t = true ->
  In t FFMPEG_ALLOWED_OPTIONS \/
  (startswith t "-" = false /\ has_dangerous_char t = false).
Proof.
  unfold token_passes. destruct (startswith t "-") eqn:E; intros H.
  - left. unfold list_in in H. apply existsb_exists in H as (x & Hx & Heq).
    apply String.eqb_eq in Heq. now subst.
  - right. split; [reflexivity|].
    apply orb_true_iff in H as [H|H].
    + now apply negb_true_iff in H.
    + now apply safe_value_not_dangerous.
Qed.

(** ** The denylist scan (C1) *)

Lemma str_in_refl (p : string) : str_in p p = true.
Proof.
  rewrite str_in_unfold. apply orb_true_iff. left.
  induction p as [|c p IH]; [reflexivity|].
  rewrite prefix_cons, Ascii.eqb_refl. exact IH.
Qed.

Lemma str_in_middle (a p b : string) : str_in p (a +:+ p +:+ b) = true.
Proof. apply str_in_app_r, str_in_app_l, str_in_refl. Qed.

Lemma forbidden_token_rejected (args : list string) (t p : string) :
  In t args -> In p FFMPEG_FORBIDDEN_PATTERNS -> str_in p t = true ->
  exists q t',
    In q FFMPEG_FORBIDDEN_PATTERNS /\ In t' args /\ str_in q t' = true /\
    validate_options args = (false, "Forbidden pattern detected: " +:+ q).
Proof.
  intros Ht Hp Hpt.
  destruct args as [|a l]; [destruct Ht|].
  unfold validate_options. cbv zeta.
  destruct (find _ _) as [q|] eqn:E.
  - apply find_some in E as [Hq Hs].
    pose proof forbidden_patterns_shape as Hshape.
    rewrite List.Forall_forall in Hshape. destruct (Hshape q Hq) as [Hns Hne].
    destruct (str_in_join_inv q (a :: l) Hns Hne Hs) as (t' & Ht' & Hqt).
    exists q, t'. repeat split; assumption.
  - apply scan_none_iff in E. rewrite forbidden_free_spec in E.
    rewrite (E t p Ht Hp) in Hpt. discriminate.
Qed.

(** C1. For every argument list one of whose tokens holds a forbidden
    substring, at whatever position [before ++ _ :: after] the token
    stands and wherever [left +:+ _ +:+ right] the substring stands in
    it, [validate_options] rejects, and the reason names a forbidden
    pattern [q] that occurs in a token of the list. *)
Theorem forbidden_substring_rejected
  (before after : list string) (left right p : string) :
  In p FFMPEG_FORBIDDEN_PATTERNS ->
  let args := before ++ (left +:+ p +:+ right) :: after in
  exists q t,
    In q FFMPEG_FORBIDDEN_PATTERNS /\ In t args /\ str_in q t = true /\
    validate_options args = (false, "Forbidden pattern detected: " +:+ q).
Proof.
  intros Hp args.
  apply (forbidden_token_rejected args (left +:+ p +:+ right) p).
  - unfold args. apply in_or_app. right. now left.
  - exact Hp.
  - apply str_in_middle.
Qed.

Lemma forbidden_substring_rejected_witness :
  exists q t,
    In q FFMPEG_FORBIDDEN_PATTERNS /\ In t ["-crf"; "23"; "a$(id)b"; "-r"] /\
    str_in q t = true /\
    validate_options ["-crf"; "23"; "a$(id)b"; "-r"]
    = (false, "Forbidden pattern detected: " +:+ q).
Proof.
  apply (forbidden_substring_rejected ["-crf"; "23"] ["-r"] "a" "id)b" "$(").
  vm_compute. tauto.
Defined.

(** ** Value tokens (C2) *)

Lemma accepted_examples_pass :
  Forall (fun v => token_passes v = true /\ forbidden_free [v] = true) accepted_examples.
Proof. repeat constructor. Qed.

Lemma forallb_insert (f : string -> bool) (l1 l2 : list string) (v : string) :
  forallb f (l1 ++ v :: l2) = f v && forallb f (l1 ++ l2).
Proof.
  rewrite !forallb_app. cbn [forallb].
  destruct (forallb f l1), (f v), (forallb f l2); reflexivity.
Qed.

(** C2. A value the specification lists as safe never causes a
    rejection: put anywhere into an accepted list, it leaves the list
    accepted, and alone it validates with ["Valid options"].  A value
    token that holds a dangerous character and matches no safe pattern
    makes [validate_options] reject the list it stands in. *)
Theorem value_tokens_checked :
  (forall (l1 l2 : list string) (v : string),
      In v accepted_examples ->
      fst (validate_options (l1 ++ l2)) = true ->
      fst (validate_options (l1 ++ v :: l2)) = true) /\
  Forall (fun v => validate_options [v] = (true, "Valid options")) accepted_examples /\
  (forall (args : list string) (v : string),
      In v args -> startswith v "-" = false ->
      has_dangerous_char v = true -> _is_safe_value v = false ->
      fst (validate_options args) = false).
Proof.
  split; [|split].
  - intros l1 l2 v Hv Hacc.
    pose proof accepted_examples_pass as Hex.
    rewrite List.Forall_forall in Hex. destruct (Hex v Hv) as [Hpass Hfree].
    rewrite validate_options_fst.
    assert (forbidden_free (l1 ++ l2) && forallb token_passes (l1 ++ l2) = true) as Hrest.
    { rewrite validate_options_fst in Hacc. destruct (l1 ++ l2); [reflexivity|exact Hacc]. }
    apply andb_true_iff in Hrest as [Hf Ht].
    destruct (l1 ++ v :: l2) eqn:E; [reflexivity|]. rewrite <- E.
    unfold forbidden_free in *. rewrite !forallb_insert, Hf, Ht, Hpass.
    cbn [forallb] in Hfree. rewrite andb_true_r in Hfree. now rewrite Hfree.
  - repeat constructor.
  - intros args v Hin Hval Hd Hs.
    rewrite validate_options_fst. destruct args as [|a l]; [destruct Hin|].
    apply andb_false_iff. right.
    destruct (forallb token_passes (a :: l)) eqn:E; [|reflexivity].
    rewrite forallb_forall in E. specialize (E v Hin).
    unfold token_passes in E. rewrite Hval, Hd, Hs in E. discriminate.
Qed.

Lemma value_tokens_checked_witness :
  fst (validate_options ["-vf"; "scale=1920:1080"; "-crf"; "23"]) = true /\
  fst (validate_options ["-vf"; "a;b"]) = false.
Proof.
  destruct value_tokens_checked as (Hins & _ & Hrej). split.
  - apply (Hins ["-vf"] ["-crf"; "23"] "scale=1920:1080");
      [vm_compute; tauto | reflexivity].
  - apply (Hrej ["-vf"; "a;b"] "a;b"); [vm_compute; tauto | reflexivity ..].
Defined.

(** ** Flags off the allowlist (C3) *)

Lemma check_tokens_first_failure (args : list string) :
  forallb token_passes args = false ->
  exists pre t post,
    args = pre ++ t :: post /\ forallb token_passes pre = true /\
    token_passes t = false /\
    check_tokens args =
    (false, (if startswith t "-" then "Option not allowed: "
             else "Potentially dangerous value: ") +:+ t).
Proof.
  induction args as [|arg rest IH]; [discriminate|].
  cbn [forallb]. intros H.
  destruct (token_passes arg) eqn:Ha.
  - destruct (IH H) as (pre & t & post & -> & Hpre & Ht & Hc).
    exists (arg :: pre), t, post. repeat split.
    + cbn [forallb]. now rewrite Ha, Hpre.
    + exact Ht.
    + change ((arg :: pre) ++ t :: post) with (arg :: (pre ++ t :: post)).
      rewrite check_tokens_cons. unfold token_passes in Ha.
      destruct (startswith arg "-").
      * rewrite Ha. exact Hc.
      * destruct (has_dangerous_char arg); [|exact Hc].
        cbn [negb orb] in Ha. rewrite Ha. exact Hc.
  - exists [], arg, rest. repeat split; [exact Ha|].
    rewrite check_tokens_cons. unfold token_passes in Ha.
    destruct (startswith arg "-").
    + now rewrite Ha.
    + destruct (has_dangerous_char arg); [|discriminate].
      cbn [negb orb] in Ha. now rewrite Ha.
Qed.

(** C3, as the claim states it, fails: the reason the code gives for
    [["-threads"; "4"]] is worded otherwise, and a dangerous value that
    comes before the flag is reported in its place. *)
Lemma unknown_flag_reason_counterexample :
  (forbidden_free ["-threads"; "4"] = true /\
   validate_options ["-threads"; "4"] <> (false, "flag not allowed: -threads")) /\
  (forbidden_free ["a/b"; "-threads"] = true /\
   validate_options ["a/b"; "-threads"] = (false, "Potentially dangerous value: a/b") /\
   str_in "-threads" (snd (validate_options ["a/b"; "-threads"])) = false).
Proof. repeat split; try reflexivity. discriminate. Qed.

(** C3, amended. In a list free of forbidden substrings, a token [f]
    that begins with [-] and is not on the allowlist makes
    [validate_options] reject; the reason names the first token that
    fails its own check, as ["Option not allowed: "] for a flag and as
    ["Potentially dangerous value: "] for a value, so it is
    ["Option not allowed: " +:+ f] when the tokens before [f] pass; and
    [["-threads"; "4"]] is rejected with ["Option not allowed: -threads"]. *)
Theorem unknown_flag_rejected (pre post : list string) (f : string) :
  forbidden_free (pre ++ f :: post) = true ->
  startswith f "-" = true -> list_in f FFMPEG_ALLOWED_OPTIONS = false ->
  let args := pre ++ f :: post in
  fst (validate_options args) = false /\
  (exists pre' t post',
      args = pre' ++ t :: post' /\ forallb token_passes pre' = true /\
      token_passes t = false /\
      validate_options args =
      (false, (if startswith t "-" then "Option not allowed: "
               else "Potentially dangerous value: ") +:+ t)) /\
  (forallb token_passes pre = true ->
   validate_options args = (false, "Option not allowed: " +:+ f)) /\
  validate_options ["-threads"; "4"] = (false, "Option not allowed: -threads").
Proof.
  intros Hfree Hf Hna args.
  assert (validate_options args = check_tokens args) as Hv.
  { unfold args. destruct (pre ++ f :: post) eqn:E; [now destruct pre|].
    rewrite <- E. rewrite <- E in Hfree.
    unfold validate_options. cbv zeta.
    apply scan_none_iff in Hfree. rewrite Hfree. now rewrite E. }
  assert (forallb token_passes args = false) as Hfail.
  { unfold args. rewrite forallb_insert. unfold token_passes at 1.
    now rewrite Hf, Hna. }
  repeat split.
  - now rewrite Hv, check_tokens_fst.
  - rewrite Hv. now apply check_tokens_first_failure.
  - intros Hpre. rewrite Hv. now apply check_tokens_first_flag.
Qed.

Lemma unknown_flag_rejected_witness :
  validate_options ["-crf"; "23"; "-threads"; "4"]
  = (false, "Option not allowed: -threads").
Proof.
  apply (unknown_flag_rejected ["-crf"; "23"] ["4"] "-threads");
    reflexivity.
Defined.

(** ** Command assembly (C5, C6) *)

(** The defaults [_build_ffmpeg_command] adds for [ffmpeg_args]. *)
Lemma build_shape (input_path output_path : string) (ffmpeg_args : list string) :
  _build_ffmpeg_command input_path output_path ffmpeg_args =
  ["ffmpeg"; "-i"; input_path] ++ ffmpeg_args
  ++ (if existsb (fun arg => startswith arg "-c:v" || String.eqb arg "-vcodec") ffmpeg_args
      then [] else ["-c:v"; "libx264"])
  ++ (if existsb (fun arg => String.eqb arg "-crf") ffmpeg_args
      then [] else ["-crf"; "23"])
  ++ ["-y"; output_path].
Proof.
  unfold _build_ffmpeg_command.
  assert (match ffmpeg_args with
          | [] => ["ffmpeg"; "-i"; input_path]
          | _ => ["ffmpeg"; "-i"; input_path] ++ ffmpeg_args
          end = ["ffmpeg"; "-i"; input_path] ++ ffmpeg_args) as ->
    by (destruct ffmpeg_args; reflexivity).
  destruct (existsb (fun arg => startswith arg "-c:v" || _) ffmpeg_args),
           (existsb (fun arg => String.eqb arg "-crf") ffmpeg_args);
    cbn [negb]; rewrite <- ?app_assoc; reflexivity.
Qed.

Lemma allowed_flag_facts :
  Forall (fun t => is_path t = false /\ t <> "-i" /\
                   startswith t "-c:v" = String.eqb t "-c:v")
         FFMPEG_ALLOWED_OPTIONS.
Proof. repeat constructor; discriminate. Qed.

(** What a token of an accepted list can be. *)
Lemma accepted_token_facts (args : list string) (t : string) :
  fst (validate_options args) = true -> In t args ->
  is_path t = false /\ t <> "-i" /\ startswith t "-c:v" = String.eqb t "-c:v".
Proof.
  intros Hacc Hin. apply accepted_tokens in Hacc.
  rewrite forallb_forall in Hacc. specialize (Hacc t Hin).
  destruct (token_passes_shape t Hacc) as [Hallowed|[Hflag Hd]].
  - pose proof allowed_flag_facts as H. rewrite List.Forall_forall in H.
    now apply H.
  - assert (forall q, String.prefix q t = true -> String.prefix "-" t = false ->
                      String.prefix "-" q = false) as Hq.
    { intros q H1 H2. destruct q as [|c q]; [reflexivity|].
      destruct t as [|d t]; [discriminate|].
      rewrite prefix_cons in *. apply andb_true_iff in H1 as [H1 _].
      apply Ascii.eqb_eq in H1. subst d. now rewrite prefix_empty, andb_true_r in *. }
    unfold startswith in *. repeat split.
    + unfold has_dangerous_char, dangerous_chars in Hd. cbn [existsb] in Hd.
      now apply orb_false_iff in Hd as [Hd _].
    + intros ->. discriminate.
    + destruct (String.prefix "-c:v" t) eqn:E1.
      * specialize (Hq _ E1 Hflag). discriminate.
      * destruct (String.eqb t "-c:v") eqn:E2; [|reflexivity].
        apply String.eqb_eq in E2. subst. discriminate.
Qed.

Lemma existsb_ext_in (f g : string -> bool) (l : list string) :
  (forall x, In x l -> f x = g x) -> existsb f l = existsb g l.
Proof.
  induction l as [|a l IH]; intros H; [reflexivity|].
  cbn [existsb]. rewrite (H a) by now left.
  rewrite IH; [reflexivity|]. intros x Hx. apply H. now right.
Qed.

Lemma existsb_or (f g : string -> bool) (l : list string) :
  existsb (fun x => f x || g x) l = existsb f l || existsb g l.
Proof.
  induction l as [|a l IH]; [reflexivity|].
  cbn [existsb]. rewrite IH.
  destruct (f a), (g a), (existsb f l), (existsb g l); reflexivity.
Qed.

Lemma list_in_existsb (x : string) (l : list string) :
  existsb (fun arg => String.eqb arg x) l = list_in x l.
Proof.
  unfold list_in. apply existsb_ext_in. intros y _. apply String.eqb_sym.
Qed.

(** On validated tokens the prefix test of the code and the test on the
    flag name agree. *)
Lemma build_refines_spec (input_path output_path : string) (args : list string) :
  fst (validate_options args) = true ->
  _build_ffmpeg_command input_path output_path args
  = build_spec input_path output_path args.
Proof.
  intros Hacc. rewrite build_shape. unfold build_spec.
  rewrite (existsb_ext_in
             (fun arg => startswith arg "-c:v" || String.eqb arg "-vcodec")
             (fun arg => String.eqb arg "-c:v" || String.eqb arg "-vcodec")).
  - now rewrite existsb_or, !list_in_existsb.
  - intros t Ht. destruct (accepted_token_facts args t Hacc Ht) as (_ & _ & ->).
    reflexivity.
Qed.

Lemma count_app (x : string) (l1 l2 : list string) :
  count x (l1 ++ l2) = (count x l1 + count x l2)%nat.
Proof. unfold count. now rewrite List.filter_app, length_app. Qed.

Lemma count_zero_iff (x : string) (l : list string) :
  count x l = 0%nat <-> list_in x l = false.
Proof.
  unfold count, list_in. induction l as [|a l IH]; [easy|].
  cbn [List.filter existsb]. destruct (String.eqb x a); cbn [length orb]; [easy|].
  exact IH.
Qed.


Lemma output_path_shape (env : Env) (output_format : string) :
  _generate_output_path env output_format
  = "/tmp/compressed_" +:+ uuid4_hex env +:+ "." +:+ output_format.
Proof. reflexivity. Qed.








Lemma saved_input_is_path (base : string) :
  is_path (os_path_join TEMP_DIR base) = true.
Proof.
  unfold os_path_join, is_path. destruct (startswith base "/") eqn:E.
  - unfold startswith in E. rewrite str_in_unfold, E. reflexivity.
  - reflexivity.
Qed.

(** Off the validated lists the two tests differ: a token that only
    begins like the codec flag suppresses the default. *)
Lemma prefix_test_outside_validation :
  fst (validate_options ["-c:vx"]) = false /\
  _build_ffmpeg_command "in" "out" ["-c:vx"] <> build_spec "in" "out" ["-c:vx"].
Proof. split; [reflexivity|discriminate]. Qed.

(** C6. For a validated list, the command is a function of its three
    inputs; it is the command of [build_spec]: the tokens in their
    order, the pair [-c:v libx264] exactly when neither [-c:v] nor
    [-vcodec] is a token of the list, the pair [-crf 23] exactly when
    [-crf] is not, the presence decided on the flag name; neither
    default is added twice (besides the two paths, [-c:v] and [-crf]
    occur as often as in the list, or once when a default is added); and
    [["-c:v"; "libx264"; "-crf"; "23"]] validates and gets no default. *)
Theorem command_assembly_defaults
  (input_path output_path : string) (args : list string) :
  fst (validate_options args) = true ->
  let cmd := _build_ffmpeg_command input_path output_path args in
  (forall i o a, (i, o, a) = (input_path, output_path, args) ->
                 _build_ffmpeg_command i o a = cmd) /\
  cmd = build_spec input_path output_path args /\
  count "-c:v" cmd =
    (count "-c:v" [input_path; output_path]
     + (if list_in "-c:v" args || list_in "-vcodec" args
        then count "-c:v" args else 1))%nat /\
  count "-crf" cmd =
    (count "-crf" [input_path; output_path]
     + (if list_in "-crf" args then count "-crf" args else 1))%nat /\
  validate_options ["-c:v"; "libx264"; "-crf"; "23"] = (true, "Valid options") /\
  _build_ffmpeg_command input_path output_path ["-c:v"; "libx264"; "-crf"; "23"]
  = ["ffmpeg"; "-i"; input_path; "-c:v"; "libx264"; "-crf"; "23"; "-y"; output_path].
Proof.
  intros Hacc cmd.
  assert (cmd = build_spec input_path output_path args) as Hcmd
    by now apply build_refines_spec.
  repeat split.
  - intros i o a [= -> -> ->]. reflexivity.
  - exact Hcmd.
  - rewrite Hcmd. unfold build_spec. rewrite !count_app.
    destruct (list_in "-c:v" args || list_in "-vcodec" args) eqn:E.
    + destruct (list_in "-crf" args); unfold count; cbn [List.filter];
        destruct (String.eqb "-c:v" input_path), (String.eqb "-c:v" output_path);
        cbn; lia.
    + apply orb_false_iff in E as [E _]. apply count_zero_iff in E. rewrite E.
      destruct (list_in "-crf" args); unfold count; cbn [List.filter];
        destruct (String.eqb "-c:v" input_path), (String.eqb "-c:v" output_path);
        cbn; lia.
  - rewrite Hcmd. unfold build_spec. rewrite !count_app.
    destruct (list_in "-crf" args) eqn:E.
    + destruct (list_in "-c:v" args || list_in "-vcodec" args);
        unfold count; cbn [List.filter];
        destruct (String.eqb "-crf" input_path), (String.eqb "-crf" output_path);
        cbn; lia.
    + apply count_zero_iff in E. rewrite E.
      destruct (list_in "-c:v" args || list_in "-vcodec" args);
        unfold count; cbn [List.filter];
        destruct (String.eqb "-crf" input_path), (String.eqb "-crf" output_path);
        cbn; lia.
Qed.

Lemma command_assembly_defaults_witness :
  _build_ffmpeg_command "/tmp/in.mp4" "/tmp/out.mp4" ["-vcodec"; "libx265"]
  = build_spec "/tmp/in.mp4" "/tmp/out.mp4" ["-vcodec"; "libx265"].
Proof.
  apply (command_assembly_defaults "/tmp/in.mp4" "/tmp/out.mp4" ["-vcodec"; "libx265"]).
  reflexivity.
Defined.

(** ** Running the monad *)

Lemma bind_ok {A B} (m : M A) (k : A -> M B) (w w' : world) (a : A) :
  m w = (Ok a, w') -> bind m k w = k a w'.
Proof. intros H. unfold bind. now rewrite H. Qed.

Lemma bind_raise {A B} (m : M A) (k : A -> M B) (w w' : world) (e : exn) :
  m w = (Raise e, w') -> bind m k w = (Raise e, w').
Proof. intros H. unfold bind. now rewrite H. Qed.

Lemma try_except_ok {A} (m : M A) (h : exn -> M A) (w w' : world) (a : A) :
  m w = (Ok a, w') -> try_except m h w = (Ok a, w').
Proof. intros H. unfold try_except. now rewrite H. Qed.

Lemma try_except_raise {A} (m : M A) (h : exn -> M A) (w w' : world) (e : exn) :
  m w = (Raise e, w') -> try_except m h w = h e w'.
Proof. intros H. unfold try_except. now rewrite H. Qed.

Lemma run_spawn_fails
  (env : Env) (cmd : list string) (timeout : Z) (w : world)
  (k : builtin_kind) (text : string) :
  os_spawn env cmd (files w) = Some (k, text) ->
  subprocess_run env cmd timeout w = (Raise (Builtin k text), w).
Proof.
  intros Hs. unfold subprocess_run. apply bind_raise.
  unfold Popen. now rewrite Hs.
Qed.

Lemma run_waits
  (env : Env) (cmd : list string) (timeout : Z) (w : world)
  (outcome : wait_outcome) (fs : gmap string Z) :
  os_spawn env cmd (files w) = None ->
  os_wait env cmd timeout (files w) = (outcome, fs) ->
  match outcome with
  | Exited returncode stdout stderr =>
      subprocess_run env cmd timeout w
      = (Ok (returncode, stdout, stderr),
         mkWorld fs (events w ++ [EvSpawn cmd] ++ [EvWait cmd]) (ticks w))
  | _ => exists e w', subprocess_run env cmd timeout w = (Raise e, w')
  end.
Proof.
  intros Hs Hw. unfold subprocess_run.
  assert (Popen env cmd w = (Ok tt, log_event (EvSpawn cmd) w)) as HP
    by (unfold Popen; now rewrite Hs).
  rewrite (bind_ok _ _ _ _ _ HP).
  unfold try_except, communicate. cbn [files log_event]. rewrite Hw.
  destruct outcome as [|k text|rc out err].
  - do 2 eexists. reflexivity.
  - do 2 eexists. reflexivity.
  - unfold log_event, set_files. cbn. now rewrite <- app_assoc.
Qed.

(** ** The process runner (C8, and the timeout branch) *)

Lemma execute_nonzero_exit
  (env : Env) (cmd : list string) (w : world)
  (returncode : Z) (stdout stderr : string) (fs : gmap string Z) :
  os_spawn env cmd (files w) = None ->
  os_wait env cmd MAX_PROCESSING_TIME (files w) = (Exited returncode stdout stderr, fs) ->
  returncode <> 0%Z ->
  _execute_ffmpeg env cmd w
  = (Raise (Custom (FFmpegError ("FFmpeg failed: " +:+ stderr) (Some returncode))),
     log_event (EvWait cmd) (set_files fs (log_event (EvSpawn cmd) w))).
Proof.
  intros Hs Hw Hrc.
  unfold _execute_ffmpeg, try_except, bind, Popen, communicate.
  rewrite Hs. cbn [files log_event]. rewrite Hw.
  apply Z.eqb_neq in Hrc. rewrite Hrc. reflexivity.
Qed.

Lemma execute_missing_tool
  (env : Env) (cmd : list string) (w : world) (text : string) :
  os_spawn env cmd (files w) = Some (FileNotFoundError, text) ->
  _execute_ffmpeg env cmd w
  = (Raise (Custom (FFmpegError "FFmpeg not found. Please install ffmpeg." None)), w).
Proof.
  intros Hs. unfold _execute_ffmpeg, try_except, bind, Popen.
  rewrite Hs. reflexivity.
Qed.

Lemma execute_success
  (env : Env) (cmd : list string) (w : world)
  (stdout stderr : string) (fs : gmap string Z) :
  os_spawn env cmd (files w) = None ->
  os_wait env cmd MAX_PROCESSING_TIME (files w) = (Exited 0 stdout stderr, fs) ->
  _execute_ffmpeg env cmd w
  = (Ok tt, log_event (EvWait cmd) (set_files fs (log_event (EvSpawn cmd) w))).
Proof.
  intros Hs Hw.
  unfold _execute_ffmpeg, try_except, bind, Popen, communicate.
  rewrite Hs. cbn [files log_event]. rewrite Hw. reflexivity.
Qed.

(** The timeout branch: the runner asks for the child to be killed,
    does not wait for it again, and raises [ProcessingTimeoutError] for
    the configured 60 seconds. *)
Lemma execute_timeout
  (env : Env) (cmd : list string) (w : world) (fs : gmap string Z) :
  os_spawn env cmd (files w) = None ->
  os_wait env cmd MAX_PROCESSING_TIME (files w) = (TimesOut, fs) ->
  _execute_ffmpeg env cmd w
  = (Raise (Custom (ProcessingTimeoutError 60)),
     mkWorld fs (events w ++ [EvSpawn cmd] ++ [EvKill cmd]) (ticks w)) /\
  message (ProcessingTimeoutError 60) = "Processing timeout after 60 seconds" /\
  error_code (ProcessingTimeoutError 60) = "PROCESSING_TIMEOUT".
Proof.
  intros Hs Hw. repeat split.
  unfold _execute_ffmpeg, try_except, bind, Popen, communicate, kill, modify.
  rewrite Hs. cbn [files log_event]. rewrite Hw.
  unfold raise, log_event, set_files. cbn. rewrite <- app_assoc. reflexivity.
Qed.

(** C4, as the claim states it, fails: after a timeout the runner has
    sent the kill and has not waited for the child, which is left
    unreaped when the call returns; [subprocess.run], which the probe
    uses, waits after its kill and leaves none. *)
Lemma timeout_leaves_child_unreaped_counterexample :
  let cmd := ["ffmpeg"; "-i"; "/tmp/in.mp4"; "-y"; "/tmp/out.mp4"] in
  (let '(r, w) := _execute_ffmpeg slow_ffmpeg_env cmd empty_world in
   r = Raise (Custom (ProcessingTimeoutError 60)) /\
   events w = [EvSpawn cmd; EvKill cmd] /\
   unreaped (events w) = [cmd]) /\
  (let '(r, w) := subprocess_run slow_ffmpeg_env cmd PROBE_TIMEOUT empty_world in
   r = Raise (Builtin TimeoutExpired "error") /\
   events w = [EvSpawn cmd; EvKill cmd; EvWait cmd] /\
   unreaped (events w) = []).
Proof. vm_compute. repeat split. Qed.

(** C4, amended. When the transcoder has not ended within the
    configured timeout of 60 seconds, the runner sends one kill, to the
    process it spawned and to nothing else, and raises a
    [ProcessingTimeoutError]: an error of a class of its own, with the
    code [PROCESSING_TIMEOUT], whose message carries the timeout. *)
Theorem timeout_kills_the_process_and_reports
  (env : Env) (cmd : list string) (w : world) (fs : gmap string Z) :
  os_spawn env cmd (files w) = None ->
  os_wait env cmd MAX_PROCESSING_TIME (files w) = (TimesOut, fs) ->
  exists w' evs,
    _execute_ffmpeg env cmd w
    = (Raise (Custom (ProcessingTimeoutError MAX_PROCESSING_TIME)), w') /\
    events w' = events w ++ evs /\
    killed evs = [cmd] /\
    MAX_PROCESSING_TIME = 60%Z /\
    klass (ProcessingTimeoutError MAX_PROCESSING_TIME) = K_ProcessingTimeoutError /\
    klass (ProcessingTimeoutError MAX_PROCESSING_TIME) <> K_FFmpegError /\
    error_code (ProcessingTimeoutError MAX_PROCESSING_TIME) = "PROCESSING_TIMEOUT" /\
    message (ProcessingTimeoutError MAX_PROCESSING_TIME)
    = "Processing timeout after 60 seconds".
Proof.
  intros Hs Hw. destruct (execute_timeout env cmd w fs Hs Hw) as (Hrun & _ & _).
  eexists. exists ([EvSpawn cmd] ++ [EvKill cmd]).
  split; [exact Hrun|]. repeat split. discriminate.
Qed.

Lemma timeout_kills_the_process_and_reports_witness :
  fst (_execute_ffmpeg slow_ffmpeg_env
         ["ffmpeg"; "-i"; "/tmp/in.mp4"; "-y"; "/tmp/out.mp4"] empty_world)
  = Raise (Custom (ProcessingTimeoutError 60)).
Proof.
  destruct (timeout_kills_the_process_and_reports slow_ffmpeg_env
              ["ffmpeg"; "-i"; "/tmp/in.mp4"; "-y"; "/tmp/out.mp4"] empty_world
              (<[ "/tmp/out.mp4" := 10%Z ]> ∅) eq_refl eq_refl)
    as (w' & evs & H & _).
  rewrite H. reflexivity.
Defined.

(** C8, as the claim states it, fails: a missing executable and a
    nonzero exit raise errors of the same class with the same code, and
    the handler answers both with the same status. *)
Lemma missing_tool_error_counterexample :
  exists e1 e2,
    fst (_execute_ffmpeg failing_ffmpeg_env ["ffmpeg"; "-i"; "a"; "-y"; "b"] empty_world)
    = Raise (Custom e1) /\
    fst (_execute_ffmpeg missing_tools_env ["ffmpeg"; "-i"; "a"; "-y"; "b"] empty_world)
    = Raise (Custom e2) /\
    returncode e1 = Some 1%Z /\ returncode e2 = None /\
    klass e1 = klass e2 /\ error_code e1 = error_code e2 /\
    handle_exception base_env (Custom e1) = HTTPException 422 (message e1) /\
    handle_exception base_env (Custom e2) = HTTPException 422 (message e2).
Proof. do 2 eexists. repeat split. Qed.

(** C8, amended. A nonzero exit status raises an [FFmpegError] that
    carries the status as [returncode] and the captured standard error
    in its message; a missing executable raises an [FFmpegError] too,
    with the same code [FFMPEG_ERROR]: it differs by its message and by
    the absent return code only. *)
Theorem execute_errors (env : Env) (cmd : list string) (w : world) :
  (forall returncode stdout stderr fs,
      os_spawn env cmd (files w) = None ->
      os_wait env cmd MAX_PROCESSING_TIME (files w)
      = (Exited returncode stdout stderr, fs) ->
      returncode <> 0%Z ->
      exists e,
        fst (_execute_ffmpeg env cmd w) = Raise (Custom e) /\
        klass e = K_FFmpegError /\ error_code e = "FFMPEG_ERROR" /\
        Exceptions.returncode e = Some returncode /\
        message e = "FFmpeg failed: " +:+ stderr) /\
  (forall text,
      os_spawn env cmd (files w) = Some (FileNotFoundError, text) ->
      exists e,
        fst (_execute_ffmpeg env cmd w) = Raise (Custom e) /\
        klass e = K_FFmpegError /\ error_code e = "FFMPEG_ERROR" /\
        Exceptions.returncode e = None /\
        message e = "FFmpeg not found. Please install ffmpeg.").
Proof.
  split.
  - intros rc out err fs Hs Hw Hrc. eexists. split.
    + rewrite (execute_nonzero_exit env cmd w rc out err fs Hs Hw Hrc). reflexivity.
    + repeat split.
  - intros text Hs. eexists. split.
    + rewrite (execute_missing_tool env cmd w text Hs). reflexivity.
    + repeat split.
Qed.

Lemma execute_errors_witness :
  (exists e,
      fst (_execute_ffmpeg failing_ffmpeg_env ["ffmpeg"; "-i"; "a"; "-y"; "b"] empty_world)
      = Raise (Custom e) /\
      klass e = K_FFmpegError /\ error_code e = "FFMPEG_ERROR" /\
      returncode e = Some 1%Z /\
      message e = "FFmpeg failed: Conversion failed!") /\
  (exists e,
      fst (_execute_ffmpeg missing_tools_env ["ffmpeg"; "-i"; "a"; "-y"; "b"] empty_world)
      = Raise (Custom e) /\
      klass e = K_FFmpegError /\ error_code e = "FFMPEG_ERROR" /\
      returncode e = None /\
      message e = "FFmpeg not found. Please install ffmpeg.").
Proof.
  split.
  - apply (proj1 (execute_errors failing_ffmpeg_env ["ffmpeg"; "-i"; "a"; "-y"; "b"]
                    empty_world)
             1%Z "" "Conversion failed!" (<[ "b" := 10%Z ]> ∅));
      [reflexivity | reflexivity | discriminate].
  - apply (proj2 (execute_errors missing_tools_env ["ffmpeg"; "-i"; "a"; "-y"; "b"]
                    empty_world)
             "No such file or directory").
    reflexivity.
Defined.

(** ** The probe (C9, C10) *)

Lemma probe_never_raises (env : Env) (file_path : string) (w : world) :
  exists d w', _get_video_info env file_path w = (Ok d, w').
Proof.
  unfold _get_video_info, try_except.
  match goal with |- context [match ?b w with _ => _ end] => destruct (b w) as [[d|e] w'] end;
    do 2 eexists; reflexivity.
Qed.

Lemma error_info_fields (text : string) :
  field (error_info text) "duration" = None /\
  field (error_info text) "format" = None /\
  field (error_info text) "streams" = None.
Proof. repeat split. Qed.

Lemma probe_failure_record (env : Env) (file_path : string) (w : world) :
  probe_fails env file_path (files w) ->
  exists text w', _get_video_info env file_path w = (Ok (error_info text), w').
Proof.
  unfold probe_fails, _get_video_info. fold (probe_cmd file_path).
  destruct (os_spawn env (probe_cmd file_path) (files w)) as [[k text]|] eqn:Hs.
  - intros _.
    erewrite try_except_raise
      by (apply bind_raise; apply (run_spawn_fails _ _ _ _ _ _ Hs)).
    do 2 eexists. reflexivity.
  - destruct (os_wait env (probe_cmd file_path) PROBE_TIMEOUT (files w))
      as [outcome fs] eqn:Hw.
    pose proof (run_waits env _ _ w outcome fs Hs Hw) as Hrun.
    cbn [fst]. destruct outcome as [|k text|rc out err].
    + intros _. destruct Hrun as (e & w' & Hrun).
      erewrite try_except_raise by (apply bind_raise; exact Hrun).
      do 2 eexists. reflexivity.
    + intros _. destruct Hrun as (e & w' & Hrun).
      erewrite try_except_raise by (apply bind_raise; exact Hrun).
      do 2 eexists. reflexivity.
    + intros [Hrc|Hj].
      * apply Z.eqb_neq in Hrc.
        erewrite try_except_ok;
          [do 2 eexists; reflexivity|].
        rewrite (bind_ok _ _ _ _ _ Hrun). cbn beta iota. rewrite Hrc. reflexivity.
      * destruct (rc =? 0)%Z eqn:Hrc.
        -- erewrite try_except_raise;
             [do 2 eexists; reflexivity|].
           rewrite (bind_ok _ _ _ _ _ Hrun). cbn beta iota. rewrite Hrc.
           cbn [negb]. apply bind_raise. rewrite Hj. reflexivity.
        -- erewrite try_except_ok;
             [do 2 eexists; reflexivity|].
           rewrite (bind_ok _ _ _ _ _ Hrun). cbn beta iota. rewrite Hrc. reflexivity.
Qed.

(** The service after validation: it probes the input, runs the
    transcoder, and raises what the transcoder raises or returns the
    result with the two probe records in it. *)
Lemma compress_follows_transcoder
  (env : Env) (input_path output_format : string) (args : list string) (w : world) :
  fst (validate_options args) = true ->
  exists d_in w1,
    _get_video_info env input_path w = (Ok d_in, w1) /\
    let output_path := _generate_output_path env output_format in
    let cmd := _build_ffmpeg_command input_path output_path args in
    match _execute_ffmpeg env cmd (snd (time_time env w1)) with
    | (Ok _, w2) =>
        exists d_out metadata w',
          _get_video_info env output_path (snd (time_time env w2)) = (Ok d_out, w') /\
          FFmpegService.compress_video env input_path args output_format w
          = (Ok (output_path, metadata), w') /\
          field metadata "input_info" = Some d_in /\
          field metadata "output_info" = Some d_out
    | (Raise e, w2) =>
        FFmpegService.compress_video env input_path args output_format w
        = (Raise e, w2)
    end.
Proof.
  intros Hacc. unfold FFmpegService.compress_video.
  destruct (validate_options args) as [is_valid error_msg]. cbn [fst] in Hacc.
  subst is_valid. cbn [negb].
  destruct (probe_never_raises env input_path w) as (d_in & w1 & Hin).
  exists d_in, w1. split; [exact Hin|]. cbv zeta.
  rewrite (bind_ok _ _ _ _ _ Hin).
  erewrite bind_ok by reflexivity.
  cbn [snd time_time].
  match goal with
  | |- context [_execute_ffmpeg env ?c ?w] =>
      destruct (_execute_ffmpeg env c w) as [[[]|e] w2] eqn:Hrun
  end.
  - rewrite (bind_ok _ _ _ _ _ Hrun).
    erewrite bind_ok by reflexivity.
    match goal with
    | |- context [bind (_get_video_info env ?p) _ ?w] =>
        destruct (probe_never_raises env p w) as (d_out & w3 & Hout)
    end.
    rewrite (bind_ok _ _ _ _ _ Hout).
    exists d_out. do 2 eexists. repeat split. exact Hout.
  - now rewrite (bind_raise _ _ _ _ _ Hrun).
Qed.

(** C9. The timeout of the probe is 10 seconds, less than the 60
    seconds of the transcoder.  For every file path and world the probe
    returns a record and never raises; when the inspection tool is
    missing, fails, times out or prints what cannot be parsed, the
    record has no [duration], no [format] and no [streams] entry.  The
    probe does not decide the outcome of a compression: rejected
    arguments raise before any probe; for accepted arguments the probe of
    the input returns its record, and then the compression raises
    exactly when the transcoder run raises, with the same error, and
    otherwise returns its result, with the record of the input probe and
    the record of the output probe in it. *)
Theorem probe_is_not_fatal
  (env : Env) (input_path output_format : string) (args : list string) (w : world) :
  (PROBE_TIMEOUT = 10 /\ MAX_PROCESSING_TIME = 60 /\
   PROBE_TIMEOUT < MAX_PROCESSING_TIME)%Z /\
  (forall file_path w0,
      exists d w', _get_video_info env file_path w0 = (Ok d, w') /\
        (probe_fails env file_path (files w0) ->
         field d "duration" = None /\ field d "format" = None /\
         field d "streams" = None)) /\
  (fst (validate_options args) = false ->
   FFmpegService.compress_video env input_path args output_format w
   = (Raise (Custom (InvalidOptionsError (snd (validate_options args)))), w)) /\
  (fst (validate_options args) = true ->
   exists d_in w1,
     _get_video_info env input_path w = (Ok d_in, w1) /\
     let output_path := _generate_output_path env output_format in
     let cmd := _build_ffmpeg_command input_path output_path args in
     match _execute_ffmpeg env cmd (snd (time_time env w1)) with
     | (Ok _, w2) =>
         exists d_out metadata w',
           _get_video_info env output_path (snd (time_time env w2)) = (Ok d_out, w') /\
           FFmpegService.compress_video env input_path args output_format w
           = (Ok (output_path, metadata), w') /\
           field metadata "input_info" = Some d_in /\
           field metadata "output_info" = Some d_out
     | (Raise e, w2) =>
         FFmpegService.compress_video env input_path args output_format w
         = (Raise e, w2)
     end).
Proof.
  split; [|split; [|split]].
  - repeat split.
  - intros file_path w0.
    destruct (probe_never_raises env file_path w0) as (d & w' & Hd).
    exists d, w'. split; [exact Hd|].
    intros Hf. destruct (probe_failure_record env file_path w0 Hf) as (text & w'' & He).
    rewrite Hd in He. injection He as -> _. apply error_info_fields.
  - intros Hrej. unfold FFmpegService.compress_video.
    destruct (validate_options args) as [is_valid error_msg]. cbn [fst snd] in *.
    subst is_valid. reflexivity.
  - apply compress_follows_transcoder.
Qed.

(** On a machine without the inspection tool, both probes fail and the
    compression returns, with the record of the failure in its result. *)
Lemma probe_is_not_fatal_witness :
  probe_fails missing_probe_env "/tmp/in.mp4" ∅ /\
  exists d_in w1 metadata w',
    _get_video_info missing_probe_env "/tmp/in.mp4" empty_world = (Ok d_in, w1) /\
    field d_in "duration" = None /\
    FFmpegService.compress_video missing_probe_env "/tmp/in.mp4" ["-crf"; "28"] "mp4"
      empty_world
    = (Ok ("/tmp/compressed_0123456789abcdef0123456789abcdef.mp4", metadata), w') /\
    field metadata "input_info" = Some d_in.
Proof.
  split; [exact I|].
  destruct (probe_is_not_fatal missing_probe_env "/tmp/in.mp4" "mp4" ["-crf"; "28"]
              empty_world) as (_ & Hprobe & _ & Hrun).
  destruct (Hrun eq_refl) as (d_in & w1 & Hin & Hm).
  destruct (Hprobe "/tmp/in.mp4" empty_world) as (d & w0 & Hd & Habsent).
  rewrite Hin in Hd. injection Hd as <- <-.
  destruct (Habsent I) as (Hduration & _).
  assert (w1 = empty_world) as ->.
  { vm_compute in Hin. now injection Hin as _ <-. }
  cbv zeta in Hm.
  destruct (_execute_ffmpeg missing_probe_env _ _) as [[[]|e] w2] eqn:Hx in Hm.
  - destruct Hm as (d_out & metadata & w' & _ & Hc & Hi & _).
    exists d_in, empty_world, metadata, w'.
    split; [exact Hin|]. split; [exact Hduration|]. split; [exact Hc|exact Hi].
  - vm_compute in Hx. discriminate.
Defined.

(** C10. When the inspection tool exits with status 0, its output
    parses to a document whose [format] section is an object without a
    [duration] entry (the file being there, and the stream list, if any,
    being a list), the probe returns a record whose [duration] is present
    with the value [0.0]; its [format] is ["unknown"] when the section
    has no [format_name] and the name otherwise. *)
Theorem probe_defaults_missing_duration
  (env : Env) (file_path : string) (w : world)
  (stdout stderr : string) (fs : gmap string Z)
  (info fmt : gmap string pyval) (file_size : Z) :
  os_spawn env (probe_cmd file_path) (files w) = None ->
  os_wait env (probe_cmd file_path) PROBE_TIMEOUT (files w)
  = (Exited 0 stdout stderr, fs) ->
  json_loads env stdout = Some (PDict info) ->
  info !! "format" = Some (PDict fmt) ->
  fmt !! "duration" = None ->
  fs !! file_path = Some file_size ->
  (info !! "streams" = None \/ exists l, info !! "streams" = Some (PList l)) ->
  exists d w',
    _get_video_info env file_path w = (Ok d, w') /\
    field d "duration" = Some (PFloat (S754_zero false)) /\
    field d "file_size" = Some (PInt file_size) /\
    field d "format"
    = Some (match fmt !! "format_name" with Some name => name | None => PStr "unknown" end) /\
    field d "streams"
    = Some (PInt (match info !! "streams" with
                  | Some (PList l) => Z.of_nat (length l)
                  | _ => 0
                  end)).
Proof.
  intros Hs Hw Hj Hf Hd Hsz Hst.
  pose proof (run_waits env _ _ w _ fs Hs Hw) as Hrun. cbn beta iota in Hrun.
  assert (exists streams,
             info !! "streams" = streams /\
             (streams = None \/ exists l, streams = Some (PList l)))
    as (streams & Hst' & Hshape) by (eexists; split; [reflexivity|exact Hst]).
  unfold _get_video_info. fold (probe_cmd file_path).
  erewrite (try_except_ok _ _ _ _
    (PDict
      (<[ "file_size" := PInt file_size ]>
      (<[ "duration" := PFloat (S754_zero false) ]>
      (<[ "format" := match fmt !! "format_name" with
                      | Some name => name
                      | None => PStr "unknown"
                      end ]>
      (<[ "streams" := PInt (match streams with
                             | Some (PList l) => Z.of_nat (length l)
                             | _ => 0
                             end) ]> ∅)))))); cycle 1.
  { rewrite (bind_ok _ _ _ _ _ Hrun). cbn beta iota. cbn [Z.eqb negb].
    rewrite Hj.
    unfold os_path_getsize, py_contains, py_getitem, py_get, py_float, py_len, bind, ret.
    cbn [files]. rewrite Hsz, Hf.
    rewrite (bool_decide_true (is_Some (Some (PDict fmt)))) by eauto.
    cbn beta iota. rewrite Hd. change (float_of_Z 0) with (S754_zero false).
    cbn beta iota. rewrite Hst'.
    destruct Hshape as [->|[l ->]]; cbn beta iota; reflexivity. }
  do 2 eexists. split; [reflexivity|]. rewrite Hst'. repeat split.
Qed.

Lemma probe_defaults_missing_duration_witness :
  exists d w',
    _get_video_info bare_format_env "/tmp/in.mp4" (one_file_world "/tmp/in.mp4" 1000)
    = (Ok d, w') /\
    field d "duration" = Some (PFloat (S754_zero false)) /\
    field d "file_size" = Some (PInt 1000) /\
    field d "format" = Some (PStr "unknown") /\
    field d "streams" = Some (PInt 0).
Proof.
  destruct (probe_defaults_missing_duration bare_format_env "/tmp/in.mp4"
              (one_file_world "/tmp/in.mp4" 1000) "" "" {[ "/tmp/in.mp4" := 1000%Z ]}
              {[ "format" := PDict ∅ ]} ∅ 1000)
    as (d & w' & H1 & H2 & H3 & H4 & H5);
    [reflexivity | reflexivity | reflexivity | reflexivity | reflexivity
    | reflexivity | left; reflexivity |].
  exists d, w'. repeat split; assumption.
Defined.

(** ** Cleanup of the request handler (C7) *)

Lemma bind_ok_inv {A B} (m : M A) (k : A -> M B) (w w' : world) (b : B) :
  bind m k w = (Ok b, w') -> exists a w1, m w = (Ok a, w1) /\ k a w1 = (Ok b, w').
Proof.
  unfold bind. destruct (m w) as [[a|e] w1]; intros H; [|discriminate].
  now exists a, w1.
Qed.

Lemma saved_name (env : Env) (upload_file : UploadFile) (w w' : world) (name : string) :
  save_upload_file env upload_file w = (Ok name, w') ->
  exists base, name = os_path_join TEMP_DIR base.
Proof.
  unfold save_upload_file, try_except.
  match goal with |- context [match ?b w with _ => _ end] => destruct (b w) as [[a|e] w1] eqn:E end;
    intros H; [|discriminate].
  injection H as <- <-.
  apply bind_ok_inv in E as ([] & w2 & _ & E).
  destruct (content upload_file); [|discriminate].
  apply bind_ok_inv in E as ([] & w3 & _ & E).
  injection E as <- _. eexists. reflexivity.
Qed.

Lemma received_input_is_path
  (env : Env) (file : UploadFile) (options : string) (w w' : world)
  (o : CompressionOptions) (input : string) :
  receive env file options w = (Ok (o, input), w') -> is_path input = true.
Proof.
  unfold receive. intros H.
  apply bind_ok_inv in H as (o' & w1 & _ & H).
  apply bind_ok_inv in H as (b1 & w2 & _ & H).
  apply bind_ok_inv in H as (b2 & w3 & _ & H).
  apply bind_ok_inv in H as (name & w4 & Hsave & H).
  injection H as _ <- _.
  destruct (saved_name env file w3 w4 name Hsave) as (base & ->).
  apply saved_input_is_path.
Qed.

(** One round of the [finally] loop deletes the file it is given, when
    [os.remove] does not raise. *)
Lemma cleanup_one_files (env : Env) (path : string) (w : world) :
  path <> "" ->
  remove_error env path (files w) = None ->
  files (snd (cleanup_one env (Some path) w)) = delete path (files w).
Proof.
  intros Hne Hrm. apply String.eqb_neq in Hne.
  unfold cleanup_one. rewrite Hne. cbn [negb].
  unfold bind, os_path_exists, try_except, os_remove.
  destruct (files w !! path) as [n|] eqn:E.
  - rewrite (bool_decide_true (is_Some (Some n))) by eauto. rewrite E, Hrm. reflexivity.
  - rewrite (bool_decide_false (is_Some None)) by (intros [? ?]; discriminate).
    cbn. symmetry. now apply delete_id.
Qed.

(** [except Exception: pass]: when [os.remove] raises, the round ends
    as if nothing had happened and the file stays. *)
Lemma cleanup_one_swallows (env : Env) (path : string) (w : world)
  (n : Z) (k : builtin_kind) (text : string) :
  path <> "" ->
  files w !! path = Some n ->
  remove_error env path (files w) = Some (k, text) ->
  cleanup_one env (Some path) w = (Ok tt, w).
Proof.
  intros Hne E Hrm. apply String.eqb_neq in Hne.
  unfold cleanup_one. rewrite Hne. cbn [negb].
  unfold bind, os_path_exists, try_except, os_remove.
  rewrite E, (bool_decide_true (is_Some (Some n))) by eauto.
  rewrite E, Hrm. reflexivity.
Qed.

(** The files a round of the [finally] loop leaves are those it found,
    or those without the file it was given. *)
Lemma cleanup_one_cases (env : Env) (file_path : option string) (w : world) :
  files (snd (cleanup_one env file_path w)) = files w \/
  exists q, file_path = Some q /\
            files (snd (cleanup_one env file_path w)) = delete q (files w).
Proof.
  destruct file_path as [q|]; [|now left].
  destruct (String.eqb q "") eqn:E.
  - left. unfold cleanup_one. now rewrite E.
  - apply String.eqb_neq in E.
    destruct (remove_error env q (files w)) as [[k text]|] eqn:Hrm.
    + left. destruct (files w !! q) as [n|] eqn:Hq.
      * now rewrite (cleanup_one_swallows env q w n k text E Hq Hrm).
      * apply String.eqb_neq in E.
        unfold cleanup_one. rewrite E. cbn [negb].
        unfold bind, os_path_exists. rewrite Hq.
        rewrite (bool_decide_false (is_Some None)) by (intros [? ?]; discriminate).
        reflexivity.
    + right. exists q. split; [reflexivity|]. now apply cleanup_one_files.
Qed.

Lemma cleanup_one_keeps_absent (env : Env) (file_path : option string) (w : world)
  (path : string) :
  files w !! path = None -> files (snd (cleanup_one env file_path w)) !! path = None.
Proof.
  intros H. destruct (cleanup_one_cases env file_path w) as [->|(q & _ & ->)];
    [exact H|].
  destruct (decide (q = path)) as [->|Hne].
  - apply lookup_delete_eq.
  - now rewrite lookup_delete_ne.
Qed.

(** Once the input copy is saved, no exit path of the handler leaves it
    behind, unless [os.remove] raises for it. *)
Lemma handler_removes_input
  (env : Env) (file : UploadFile) (options : string) (w w1 : world)
  (o : CompressionOptions) (input : string) :
  receive env file options w = (Ok (o, input), w1) ->
  (forall fs, remove_error env input fs = None) ->
  files (snd (Main.compress_video env file options w)) !! input = None.
Proof.
  intros Hrecv Hrm.
  assert (input <> "") as Hne.
  { pose proof (received_input_is_path _ _ _ _ _ _ _ Hrecv) as Hp.
    intros ->. discriminate. }
  assert (forall out w2,
             files (snd (cleanup env (mkLocals (Some input) out) w2)) !! input = None)
    as Hclean.
  { intros out w2. unfold cleanup. cbn [input_file_path output_file_path].
    unfold bind at 1.
    destruct (cleanup_one env (Some input) w2) as [[[]|e] w3] eqn:E.
    - apply cleanup_one_keeps_absent.
      change w3 with (snd (Ok tt, w3)). rewrite <- E.
      rewrite cleanup_one_files by (exact Hne || apply Hrm). apply lookup_delete_eq.
    - cbn [snd]. change w3 with (snd (@Raise unit e, w3)). rewrite <- E.
      rewrite cleanup_one_files by (exact Hne || apply Hrm). apply lookup_delete_eq. }
  unfold Main.compress_video. rewrite Hrecv.
  destruct (transcode env input o w1) as [[[[sz st] [out meta]]|e] w2].
  - destruct (deliver env o sz st out meta w2) as [r w3]. apply Hclean.
  - apply Hclean.
Qed.

(** When the temporary directory refuses removals, the [finally] block
    ignores the error: the answer is the one of a machine that allows
    them, and the input copy stays. *)
Lemma failed_removal_is_ignored :
  let '(r, w) := Main.compress_video locked_tmp_env clip "{}" empty_world in
  r = fst (Main.compress_video base_env clip "{}" empty_world) /\
  files w !! "/tmp/tmpab12cd34.mp4" = Some 1000%Z /\
  files (snd (Main.compress_video base_env clip "{}" empty_world))
    !! "/tmp/tmpab12cd34.mp4" = None.
Proof. vm_compute. repeat split. Qed.

(** An upload that cannot be read leaves the file [tempfile] created:
    [input_file_path] is not assigned when [save_upload_file] raises. *)
Lemma failed_save_leaves_input :
  let '(r, w) := Main.compress_video base_env broken_clip "{}" empty_world in
  r = Raise (HTTPException 400 "Failed to save uploaded file: error") /\
  files w !! "/tmp/tmpab12cd34.mp4" = Some 0%Z.
Proof. vm_compute. repeat split. Qed.

(** C7 fails on the code. [output_file_path] is assigned only when
    [FFmpegService.compress_video] returns, so the [finally] block does
    not know the output file of a transcoder that exits with a nonzero
    status or runs into the timeout after it began to write: the handler
    answers 422 or 408 and leaves the file, where there was none before
    the request.  The input copy is removed; and when the upload fails,
    after the assignment, both files are removed. *)
Theorem failed_transcode_leaves_output :
  let output := "/tmp/compressed_0123456789abcdef0123456789abcdef.mp4" in
  let input := "/tmp/tmpab12cd34.mp4" in
  files empty_world = ∅ /\
  (let '(r, w) := Main.compress_video failing_ffmpeg_env clip "{}" empty_world in
   r = Raise (HTTPException 422 "FFmpeg failed: Conversion failed!") /\
   files w !! input = None /\ files w !! output = Some 10%Z) /\
  (let '(r, w) := Main.compress_video slow_ffmpeg_env clip "{}" empty_world in
   r = Raise (HTTPException 408 "Processing timeout after 60 seconds") /\
   files w !! input = None /\ files w !! output = Some 10%Z) /\
  (let '(r, w) := Main.compress_video failing_storage_env clip "{}" empty_world in
   r = Raise (HTTPException 500 "Failed to upload file to Cloud Storage: unavailable") /\
   files w !! input = None /\ files w !! output = None).
Proof. vm_compute. repeat split. Qed.

(** * Further properties of the code *)

(** ** [FFmpegValidator.validate_options] *)

Lemma forbidden_free_app (l1 l2 : list string) :
  forbidden_free (l1 ++ l2) = forbidden_free l1 && forbidden_free l2.
Proof. unfold forbidden_free. apply forallb_app. Qed.

Lemma token_accepted_spec (t : string) :
  token_accepted t = forbidden_free [t] && token_passes t.
Proof.
  unfold token_accepted. rewrite validate_options_fst.
  cbn [forallb]. now rewrite andb_true_r.
Qed.

Lemma forallb_token_accepted (args : list string) :
  forallb token_accepted args = forbidden_free args && forallb token_passes args.
Proof.
  induction args as [|a l IH]; [reflexivity|].
  cbn [forallb]. rewrite IH, token_accepted_spec.
  rewrite (forbidden_free_app [a] l : forbidden_free (a :: l) = _).
  destruct (forbidden_free [a]), (token_passes a), (forbidden_free l); reflexivity.
Qed.

(** X1. The verdict is taken token by token: a list is accepted exactly
    when each of its tokens, validated alone, is accepted.  So the
    verdict of a concatenation is the conjunction of the verdicts: the
    validator relates no token to its neighbours (a flag needs no value,
    a value needs no flag before it). *)
Theorem verdict_is_tokenwise (args : list string) :
  fst (validate_options args) = forallb (fun t => fst (validate_options [t])) args /\
  forall l1 l2,
    args = l1 ++ l2 ->
    fst (validate_options args)
    = fst (validate_options l1) && fst (validate_options l2).
Proof.
  assert (forall l, fst (validate_options l) = forallb token_accepted l) as H.
  { intros l. rewrite validate_options_fst, forallb_token_accepted.
    now destruct l. }
  split; [apply H|].
  intros l1 l2 ->. rewrite !H. apply forallb_app.
Qed.

Lemma verdict_is_tokenwise_witness :
  fst (validate_options (["-crf"] ++ ["-preset"; "-r"]))
  = fst (validate_options ["-crf"]) && fst (validate_options ["-preset"; "-r"]).
Proof.
  apply (proj2 (verdict_is_tokenwise (["-crf"] ++ ["-preset"; "-r"]))).
  reflexivity.
Defined.

Lemma allowed_flags_harmless :
  Forall (fun t => has_dangerous_char t = false) FFMPEG_ALLOWED_OPTIONS.
Proof. repeat constructor. Qed.

(** X2. No safe pattern rescues a value: [_is_safe_value] is [False] on
    every string that holds a dangerous character, so the branch that
    calls it always rejects, and a value token alone is accepted exactly
    when it holds no dangerous character and no forbidden substring. *)
Theorem safe_patterns_never_rescue (v : string) :
  (has_dangerous_char v = true -> _is_safe_value v = false) /\
  (startswith v "-" = false ->
   fst (validate_options [v]) = forbidden_free [v] && negb (has_dangerous_char v)).
Proof.
  assert (has_dangerous_char v = true -> _is_safe_value v = false) as H.
  { intros Hd. destruct (_is_safe_value v) eqn:E; [|reflexivity].
    apply safe_value_not_dangerous in E. congruence. }
  split; [exact H|].
  intros Hv. fold (token_accepted v). rewrite token_accepted_spec.
  unfold token_passes. rewrite Hv.
  destruct (has_dangerous_char v); [|reflexivity].
  now rewrite H.
Qed.

Lemma safe_patterns_never_rescue_witness :
  _is_safe_value "scale=1920:1080;id" = false /\
  fst (validate_options ["1920x1080"]) = true.
Proof.
  split.
  - apply (proj1 (safe_patterns_never_rescue "scale=1920:1080;id")). reflexivity.
  - rewrite (proj2 (safe_patterns_never_rescue "1920x1080")); reflexivity.
Defined.

(** X3. What an accepted list can hold: every token is free of the
    dangerous characters and of the forbidden substrings, and a token
    that begins with [-] is a member of the allowlist. *)
Theorem accepted_list_is_harmless (args : list string) :
  fst (validate_options args) = true ->
  Forall (fun t =>
            has_dangerous_char t = false /\
            (forall p, In p FFMPEG_FORBIDDEN_PATTERNS -> str_in p t = false) /\
            (startswith t "-" = true -> In t FFMPEG_ALLOWED_OPTIONS))
         args.
Proof.
  intros Hacc. apply List.Forall_forall. intros t Ht.
  pose proof (accepted_tokens args Hacc) as Hpass.
  rewrite forallb_forall in Hpass. specialize (Hpass t Ht).
  assert (forbidden_free args = true) as Hfree.
  { rewrite validate_options_fst in Hacc. destruct args; [destruct Ht|].
    now apply andb_true_iff in Hacc as [Hf _]. }
  rewrite forbidden_free_spec in Hfree.
  repeat split.
  - destruct (token_passes_shape t Hpass) as [Hal|[_ Hd]]; [|exact Hd].
    pose proof allowed_flags_harmless as H. rewrite List.Forall_forall in H.
    now apply H.
  - intros p Hp. now apply Hfree.
  - intros Hflag. destruct (token_passes_shape t Hpass) as [Hal|[Hv _]];
      [exact Hal|congruence].
Qed.

Lemma accepted_list_is_harmless_witness :
  Forall (fun t =>
            has_dangerous_char t = false /\
            (forall p, In p FFMPEG_FORBIDDEN_PATTERNS -> str_in p t = false) /\
            (startswith t "-" = true -> In t FFMPEG_ALLOWED_OPTIONS))
         ["-vf"; "scale=1280:720"; "-preset"; "fast"].
Proof.
  apply (accepted_list_is_harmless ["-vf"; "scale=1280:720"; "-preset"; "fast"]).
  reflexivity.
Defined.

Lemma find_first (f : string -> bool) (l : list string) (x : string) :
  find f l = Some x ->
  exists l1 l2, l = l1 ++ x :: l2 /\ f x = true /\ forall y, In y l1 -> f y = false.
Proof.
  induction l as [|a l IH]; [discriminate|].
  cbn [find]. destruct (f a) eqn:E.
  - intros [= ->]. exists [], l. repeat split; [exact E|]. intros y [].
  - intros H. destruct (IH H) as (l1 & l2 & -> & Hx & Hl1).
    exists (a :: l1), l2. repeat split; [exact Hx|].
    intros y [<-|Hy]; [exact E|now apply Hl1].
Qed.

(** X4. The four answers of [validate_options].  The empty list is
    accepted with ["No options provided"]; a list with a forbidden
    substring is rejected with the first pattern, in the order of the
    settings, that occurs in one of its tokens, whatever else the list
    holds; a list without one is rejected with the first token that
    fails its own check; every other list is accepted with
    ["Valid options"]. *)
Theorem validate_options_answers (args : list string) :
  (args = [] /\ validate_options args = (true, "No options provided")) \/
  (args <> [] /\ forbidden_free args = true /\ forallb token_passes args = true /\
   validate_options args = (true, "Valid options")) \/
  (exists before p after t,
      FFMPEG_FORBIDDEN_PATTERNS = before ++ p :: after /\
      In t args /\ str_in p t = true /\
      (forall q t', In q before -> In t' args -> str_in q t' = false) /\
      validate_options args = (false, "Forbidden pattern detected: " +:+ p)) \/
  (forbidden_free args = true /\
   exists pre t post,
     args = pre ++ t :: post /\ forallb token_passes pre = true /\
     token_passes t = false /\
     validate_options args =
     (false, (if startswith t "-" then "Option not allowed: "
              else "Potentially dangerous value: ") +:+ t)).
Proof.
  destruct args as [|a l]; [left; now split|]. right.
  unfold validate_options. cbv zeta.
  destruct (find _ _) as [p|] eqn:E.
  - right. left.
    destruct (find_first _ _ _ E) as (before & after & Hsplit & Hp & Hbefore).
    assert (In p FFMPEG_FORBIDDEN_PATTERNS) as Hin
      by (rewrite Hsplit; apply in_or_app; right; now left).
    pose proof forbidden_patterns_shape as Hshape.
    rewrite List.Forall_forall in Hshape. destruct (Hshape p Hin) as [Hns Hne].
    destruct (str_in_join_inv p (a :: l) Hns Hne Hp) as (t & Ht & Hpt).
    exists before, p, after, t. repeat split; try assumption.
    intros q t' Hq Ht'. specialize (Hbefore q Hq). cbv beta in Hbefore.
    destruct (str_in q t') eqn:Eq; [|reflexivity].
    now rewrite (str_in_join q " " t' (a :: l) Ht' Eq) in Hbefore.
  - apply scan_none_iff in E.
    destruct (forallb token_passes (a :: l)) eqn:Hp.
    + left. repeat split; [discriminate|exact E|now apply check_tokens_accept].
    + right. right. split; [exact E|]. now apply check_tokens_first_failure.
Qed.

(** ** [FFmpegService._build_ffmpeg_command] *)

Lemma options_of_build (input_path output_path : string) (args : list string) :
  options_of (_build_ffmpeg_command input_path output_path args)
  = args
    ++ (if existsb (fun arg => startswith arg "-c:v" || String.eqb arg "-vcodec") args
        then [] else ["-c:v"; "libx264"])
    ++ (if existsb (fun arg => String.eqb arg "-crf") args
        then [] else ["-crf"; "23"]).
Proof.
  rewrite build_shape. unfold options_of. cbn [List.skipn app].
  set (d1 := if existsb _ args then [] else ["-c:v"; "libx264"]).
  set (d2 := if existsb (fun arg => String.eqb arg "-crf") args then [] else ["-crf"; "23"]).
  replace (args ++ d1 ++ d2 ++ ["-y"; output_path])
    with (((args ++ d1 ++ d2) ++ ["-y"]) ++ [output_path])
    by (rewrite <- !app_assoc; reflexivity).
  rewrite drop_0. now rewrite !List.removelast_last.
Qed.

(** X5. Assembly is idempotent: the options of an assembled command,
    assembled again, give the same command; they are the caller's tokens
    in their order, followed by the defaults that were added. *)
Theorem build_is_idempotent (input_path output_path : string) (args : list string) :
  let cmd := _build_ffmpeg_command input_path output_path args in
  _build_ffmpeg_command input_path output_path (options_of cmd) = cmd /\
  exists defaults,
    options_of cmd = args ++ defaults /\
    In defaults [ []; ["-c:v"; "libx264"]; ["-crf"; "23"];
                  ["-c:v"; "libx264"; "-crf"; "23"] ].
Proof.
  intros cmd. unfold cmd. rewrite options_of_build. split.
  - rewrite (build_shape input_path output_path args).
    rewrite build_shape.
    destruct (existsb (fun arg => startswith arg "-c:v" || String.eqb arg "-vcodec") args)
      eqn:E1;
      destruct (existsb (fun arg => String.eqb arg "-crf") args) eqn:E2;
      rewrite !existsb_app, ?E1, ?E2; cbn [existsb app orb];
      rewrite ?app_nil_r, ?orb_true_r; cbn [app];
      rewrite <- ?app_assoc; reflexivity.
  - destruct (existsb (fun arg => startswith arg "-c:v" || _) args),
             (existsb (fun arg => String.eqb arg "-crf") args);
      eexists; (split; [reflexivity|]); cbn; tauto.
Qed.

(** X6. The length of the command: five fixed tokens, the caller's
    tokens and at most two default pairs; for the options the model of
    the request accepts (at most 20 tokens), at most 29 tokens. *)
Theorem command_length_bounds
  (input_path output_path : string) (v : list string) (fmt : string)
  (o : CompressionOptions) :
  validate_fields v fmt = Some o ->
  let cmd := _build_ffmpeg_command input_path output_path (ffmpeg_args o) in
  ffmpeg_args o = v /\ In (output_format o) allowed_formats /\
  (length v + 5 <= length cmd <= length v + 9)%nat /\
  (length cmd <= 29)%nat.
Proof.
  unfold validate_fields. destruct (20 <? length v)%nat eqn:Hlen; [discriminate|].
  destruct (list_in fmt allowed_formats) eqn:Hfmt; [|discriminate].
  intros [= <-]. cbn [ffmpeg_args output_format].
  apply Nat.ltb_ge in Hlen.
  assert (length v + 5 <= length (_build_ffmpeg_command input_path output_path v)
          <= length v + 9)%nat as Hb.
  { rewrite build_shape. rewrite !length_app.
    destruct (existsb (fun arg => startswith arg "-c:v" || _) v),
             (existsb (fun arg => String.eqb arg "-crf") v); cbn [length]; lia. }
  repeat split; try lia.
  unfold list_in in Hfmt. apply existsb_exists in Hfmt as (x & Hx & Heq).
  apply String.eqb_eq in Heq. now subst.
Qed.

Lemma command_length_bounds_witness :
  (length (_build_ffmpeg_command "/tmp/in.mp4" "/tmp/out.webm" ["-b:v"; "1M"]) <= 29)%nat.
Proof.
  apply (command_length_bounds "/tmp/in.mp4" "/tmp/out.webm" ["-b:v"; "1M"] "webm"
           (mkCompressionOptions ["-b:v"; "1M"] "webm")).
  reflexivity.
Defined.

(** ** What a computation leaves unchanged *)

Section Preserves.

Context {T : Type} (f : world -> T).

Lemma preserves_ret {A} (a : A) : preserves f (ret a).
Proof. intros w. reflexivity. Qed.

Lemma preserves_raise {A} (e : exn) : preserves f (@raise A e).
Proof. intros w. reflexivity. Qed.

Lemma preserves_bind {A B} (m : M A) (k : A -> M B) :
  preserves f m -> (forall a, preserves f (k a)) -> preserves f (bind m k).
Proof.
  intros Hm Hk w. unfold bind. specialize (Hm w).
  destruct (m w) as [[a|e] w1]; cbn [snd] in *.
  - now rewrite Hk.
  - exact Hm.
Qed.

Lemma preserves_try_except {A} (m : M A) (h : exn -> M A) :
  preserves f m -> (forall e, preserves f (h e)) -> preserves f (try_except m h).
Proof.
  intros Hm Hh w. unfold try_except. specialize (Hm w).
  destruct (m w) as [[a|e] w1]; cbn [snd] in *.
  - exact Hm.
  - now rewrite Hh.
Qed.

Lemma preserves_modify (g : world -> world) :
  (forall w, f (g w) = f w) -> preserves f (modify g).
Proof. intros H w. apply H. Qed.

Variable env : Env.

Lemma preserves_getsize (path : string) : preserves f (os_path_getsize env path).
Proof. intros w. unfold os_path_getsize. now destruct (files w !! path). Qed.

Lemma preserves_contains (key : string) (x : pyval) : preserves f (py_contains env key x).
Proof. intros w. now destruct x. Qed.

Lemma preserves_getitem (x : pyval) (key : string) : preserves f (py_getitem env x key).
Proof. intros w. destruct x; try reflexivity. cbn. now destruct (d !! key). Qed.

Lemma preserves_get (x : pyval) (key : string) (default : pyval) :
  preserves f (py_get env x key default).
Proof. intros w. now destruct x. Qed.

Lemma preserves_float (x : pyval) : preserves f (py_float env x).
Proof.
  intros w. destruct x; try reflexivity; cbn.
  - now destruct (float_of_Z z).
  - now destruct (float_of_str env s).
Qed.

Lemma preserves_len (x : pyval) : preserves f (py_len env x).
Proof. intros w. now destruct x. Qed.

End Preserves.

Lemma try_bind_world {A B} (m : M A) (k : A -> M B) (h : exn -> M B) (w : world) :
  (forall a, preserves id (k a)) -> (forall e, preserves id (h e)) ->
  snd (try_except (bind m k) h w) = snd (m w).
Proof.
  intros Hk Hh. unfold try_except, bind.
  destruct (m w) as [[a|e] w1]; cbn [snd].
  - specialize (Hk a w1). unfold id in Hk.
    destruct (k a w1) as [[b|e] w2]; cbn [snd] in *.
    + exact Hk.
    + pose proof (Hh e w2) as H2. unfold id in H2. now rewrite H2.
  - apply (Hh e w1).
Qed.

(** The world after the probe is the world after its [subprocess.run]. *)
Lemma probe_world (env : Env) (file_path : string) (w : world) :
  snd (_get_video_info env file_path w)
  = snd (subprocess_run env (probe_cmd file_path) PROBE_TIMEOUT w).
Proof.
  unfold _get_video_info. apply try_bind_world.
  - intros [[rc out] err]. destruct (negb (rc =? 0)%Z); [apply preserves_ret|].
    apply preserves_bind; [destruct (json_loads env out);
                           [apply preserves_ret|apply preserves_raise]|].
    intros info. apply preserves_bind; [apply preserves_getsize|].
    intros file_size. apply preserves_bind; [apply preserves_contains|].
    intros has. apply preserves_bind.
    + destruct has; [|apply preserves_ret].
      apply preserves_bind; [apply preserves_getitem|]. intros fmt.
      apply preserves_bind; [apply preserves_get|]. intros d.
      apply preserves_bind; [apply preserves_float|]. intros duration.
      apply preserves_bind; [apply preserves_get|]. intros name.
      apply preserves_ret.
    + intros df. apply preserves_bind; [apply preserves_get|]. intros streams.
      apply preserves_bind; [apply preserves_len|]. intros n.
      apply preserves_ret.
  - intros e. apply preserves_ret.
Qed.

Lemma only_runs_refl (allowed : list (list string)) (w : world) : only_runs allowed w w.
Proof. exists []. split; [now rewrite app_nil_r|constructor]. Qed.

Lemma only_runs_trans (a1 a2 allowed : list (list string)) (w1 w2 w3 : world) :
  only_runs a1 w1 w2 -> only_runs a2 w2 w3 ->
  (forall c, In c a1 -> In c allowed) -> (forall c, In c a2 -> In c allowed) ->
  only_runs allowed w1 w3.
Proof.
  intros (e1 & H1 & F1) (e2 & H2 & F2) I1 I2. exists (e1 ++ e2). split.
  - now rewrite H2, H1, app_assoc.
  - apply Forall_app. split.
    + eapply Forall_impl; [exact F1|]. intros ev. apply I1.
    + eapply Forall_impl; [exact F2|]. intros ev. apply I2.
Qed.

Lemma only_runs_events (allowed : list (list string)) (w w' : world) :
  events w' = events w -> only_runs allowed w w'.
Proof. intros H. exists []. split; [now rewrite app_nil_r|constructor]. Qed.

Lemma run_only_runs (env : Env) (cmd : list string) (timeout : Z) (w : world) :
  only_runs [cmd] w (snd (subprocess_run env cmd timeout w)) /\
  ticks (snd (subprocess_run env cmd timeout w)) = ticks w.
Proof.
  unfold subprocess_run, bind, Popen, try_except, communicate, kill, modify, raise.
  destruct (os_spawn env cmd (files w)) as [[k text]|].
  - split; [apply only_runs_refl|reflexivity].
  - cbn [files log_event].
    destruct (os_wait env cmd timeout (files w)) as [[|k text|rc out err] fs];
      (split; [|reflexivity]); eexists; (split; [cbn; rewrite <- ?app_assoc; reflexivity|]);
      repeat constructor.
Qed.

Lemma probe_only_runs (env : Env) (file_path : string) (w : world) :
  only_runs [probe_cmd file_path] w (snd (_get_video_info env file_path w)) /\
  ticks (snd (_get_video_info env file_path w)) = ticks w.
Proof. rewrite probe_world. apply run_only_runs. Qed.

Lemma execute_only_runs (env : Env) (cmd : list string) (w : world) :
  only_runs [cmd] w (snd (_execute_ffmpeg env cmd w)) /\
  ticks (snd (_execute_ffmpeg env cmd w)) = ticks w.
Proof.
  unfold _execute_ffmpeg, bind, Popen, try_except, communicate, kill, modify, raise.
  destruct (os_spawn env cmd (files w)) as [[k text]|].
  - split; [|now destruct k]. destruct k; apply only_runs_refl.
  - cbn [files log_event].
    destruct (os_wait env cmd MAX_PROCESSING_TIME (files w))
      as [[|k text|rc out err] fs].
    + split; [|reflexivity]. eexists.
      split; [cbn; rewrite <- ?app_assoc; reflexivity|]. repeat constructor.
    + split; [|now destruct k].
      destruct k; eexists;
        (split; [cbn; rewrite <- ?app_assoc; reflexivity|]); repeat constructor.
    + destruct (negb (rc =? 0)%Z); (split; [|reflexivity]); eexists;
        (split; [cbn; rewrite <- ?app_assoc; reflexivity|]); repeat constructor.
Qed.

(** ** [FFmpegService._execute_ffmpeg] and [FFmpegService.compress_video] *)

(** X7. The runner normalises every failure: it returns only when the
    command was spawned and exited with status 0, and otherwise raises a
    [ProcessingTimeoutError] (exactly when the wait ran into the
    timeout) or an [FFmpegError]; no library exception leaves it. *)
Theorem runner_errors_are_normalised (env : Env) (cmd : list string) (w : world) :
  let spawned := os_spawn env cmd (files w) in
  let outcome := fst (os_wait env cmd MAX_PROCESSING_TIME (files w)) in
  let timed_out :=
    spawned = None /\
    (outcome = TimesOut \/ exists text, outcome = WaitRaises TimeoutExpired text) in
  match fst (_execute_ffmpeg env cmd w) with
  | Ok _ => spawned = None /\ exists stdout stderr, outcome = Exited 0 stdout stderr
  | Raise (Custom e) =>
      (klass e = K_ProcessingTimeoutError /\ error_code e = "PROCESSING_TIMEOUT"
       /\ timed_out) \/
      (klass e = K_FFmpegError /\ error_code e = "FFMPEG_ERROR" /\ ~ timed_out)
  | Raise _ => False
  end.
Proof.
  cbv zeta.
  unfold _execute_ffmpeg, bind, Popen, try_except, communicate, kill, modify, raise.
  destruct (os_spawn env cmd (files w)) as [[k text]|].
  - destruct k; cbn; right; (repeat split); intros [H _]; discriminate.
  - cbn [files log_event].
    destruct (os_wait env cmd MAX_PROCESSING_TIME (files w))
      as [[|k text|rc out err] fs]; cbn [fst].
    + cbn. left. repeat split. now left.
    + destruct k; cbn;
        try (right; (repeat split); intros [_ [H|[t H]]]; discriminate).
      left. repeat split. right. now exists text.
    + destruct (rc =? 0)%Z eqn:E; cbn.
      * apply Z.eqb_eq in E. subst. split; [reflexivity|]. now exists out, err.
      * right. repeat split. intros [_ [H|[t H]]]; discriminate.
Qed.

(** X8. Rejected arguments stop the service before it does anything:
    it raises [InvalidOptionsError] with the reason of the validator and
    leaves the world (files, processes, clock) as it was. *)
Theorem rejected_arguments_have_no_effect
  (env : Env) (input_path output_format : string) (args : list string) (w : world) :
  fst (validate_options args) = false ->
  FFmpegService.compress_video env input_path args output_format w
  = (Raise (Custom (InvalidOptionsError (snd (validate_options args)))), w) /\
  error_code (InvalidOptionsError (snd (validate_options args)))
  = "INVALID_OPTIONS_ERROR".
Proof.
  intros H. split; [|reflexivity]. unfold FFmpegService.compress_video.
  destruct (validate_options args) as [is_valid msg]. cbn [fst snd] in *.
  now subst.
Qed.

Lemma rejected_arguments_have_no_effect_witness :
  FFmpegService.compress_video base_env "/tmp/in.mp4" ["-i"; "/etc/passwd"] "mp4"
    empty_world
  = (Raise (Custom (InvalidOptionsError "Forbidden pattern detected: -i")), empty_world).
Proof.
  apply (rejected_arguments_have_no_effect base_env "/tmp/in.mp4" "mp4"
           ["-i"; "/etc/passwd"] empty_world).
  reflexivity.
Defined.

(** The process events of one run of the service, and its clock
    readings. *)
Lemma service_only_runs
  (env : Env) (input_path output_format : string) (args : list string) (w : world) :
  let output_path := _generate_output_path env output_format in
  let cmd := _build_ffmpeg_command input_path output_path args in
  let w' := snd (FFmpegService.compress_video env input_path args output_format w) in
  only_runs [probe_cmd input_path; cmd; probe_cmd output_path] w w' /\
  (ticks w <= ticks w' <= ticks w + 2)%nat.
Proof.
  cbv zeta.
  set (output_path := _generate_output_path env output_format).
  set (cmd := _build_ffmpeg_command input_path output_path args).
  set (allowed := [probe_cmd input_path; cmd; probe_cmd output_path]).
  assert (forall w',
             w' = snd (FFmpegService.compress_video env input_path args output_format w) ->
             only_runs allowed w w' /\ (ticks w <= ticks w' <= ticks w + 2)%nat) as H;
    [|now apply H].
  intros w' Hw'. unfold FFmpegService.compress_video in Hw'.
  fold output_path in Hw'. fold cmd in Hw'.
  destruct (validate_options args) as [[] msg]; cbn beta iota in Hw'; cbn [negb] in Hw';
    [|subst w'; split; [apply only_runs_refl|cbn; lia]].
  unfold bind, time_time in Hw'. cbn beta iota in Hw'.
  destruct (probe_only_runs env input_path w) as [R1 T1].
  destruct (_get_video_info env input_path w) as [[d_in|e] w1]; cbn [snd] in *.
  2: { subst w'. split; [|lia]. eapply (only_runs_trans _ []);
         [exact R1|apply only_runs_refl|intros c [<-|[]]; now left|intros c []]. }
  set (w2 := mkWorld (files w1) (events w1) (S (ticks w1))) in *.
  destruct (execute_only_runs env cmd w2) as [R2 T2].
  destruct (_execute_ffmpeg env cmd w2) as [[[]|e] w3]; cbn [snd] in *.
  - set (w4 := mkWorld (files w3) (events w3) (S (ticks w3))) in *.
    destruct (probe_only_runs env output_path w4) as [R3 T3].
    assert (only_runs allowed w w1) as S1
      by (eapply (only_runs_trans _ []);
          [exact R1|apply only_runs_refl|intros c [<-|[]]; now left|intros c []]).
    assert (only_runs allowed w1 w3) as S2
      by (eapply (only_runs_trans [] _ _ w1 w2 w3);
          [now apply only_runs_events|exact R2|intros c []
          |intros c [<-|[]]; right; now left]).
    assert (only_runs allowed w3 (snd (_get_video_info env output_path w4))) as S3
      by (eapply (only_runs_trans [] _ _ w3 w4);
          [now apply only_runs_events|exact R3|intros c []
          |intros c [<-|[]]; right; right; now left]).
    assert (only_runs allowed w (snd (_get_video_info env output_path w4))) as S4
      by (eapply (only_runs_trans allowed allowed allowed);
          [exact S1
          |eapply (only_runs_trans allowed allowed allowed);
           [exact S2|exact S3|auto|auto]
          |auto|auto]).
    destruct (_get_video_info env output_path w4) as [[d_out|e] w5];
      cbn [snd] in *; subst w'; (split; [exact S4|]);
      unfold w4, w2 in *; cbn in *; lia.
  - subst w'. split; [|unfold w2 in *; cbn in *; lia].
    eapply (only_runs_trans allowed allowed allowed);
      [eapply (only_runs_trans _ []);
         [exact R1|apply only_runs_refl|intros c [<-|[]]; now left|intros c []]
      |eapply (only_runs_trans [] _ _ w1 w2 w3);
         [now apply only_runs_events|exact R2|intros c []
         |intros c [<-|[]]; right; now left]
      |auto|auto].
Qed.

(** X9. Whatever the arguments and the machine, the service spawns,
    waits for and kills nothing but the probe of the input path, the
    assembled transcoder command and the probe of the generated output
    path, and it reads the clock at most twice. *)
Theorem service_runs_only_its_commands
  (env : Env) (input_path output_format : string) (args : list string) (w : world) :
  let output_path := _generate_output_path env output_format in
  let cmd := _build_ffmpeg_command input_path output_path args in
  let w' := snd (FFmpegService.compress_video env input_path args output_format w) in
  only_runs [probe_cmd input_path; cmd; probe_cmd output_path] w w' /\
  (ticks w <= ticks w' <= ticks w + 2)%nat.
Proof. apply service_only_runs. Qed.

(** ** [FFmpegService._get_video_info] *)

(** X10. The record of the probe has one of two shapes: the single
    entry [error], or the four entries [file_size], [duration], [format]
    and [streams]; never a part of them. *)
Theorem probe_record_shape (env : Env) (file_path : string) (w : world) :
  exists d w',
    _get_video_info env file_path w = (Ok d, w') /\
    (keys d = {[ "error" ]} \/
     keys d = {[ "file_size"; "duration"; "format"; "streams" ]}).
Proof.
  unfold _get_video_info, try_except.
  match goal with
  | |- context [match ?b w with _ => _ end] => destruct (b w) as [[d|e] w'] eqn:E
  end.
  2: { do 2 eexists. split; [reflexivity|]. left. apply dom_singleton_L. }
  exists d, w'. split; [reflexivity|].
  apply bind_ok_inv in E as ([[rc out] err] & w1 & _ & E).
  destruct (negb (rc =? 0)%Z).
  { injection E as <- _. left. apply dom_singleton_L. }
  apply bind_ok_inv in E as (info & w2 & _ & E).
  apply bind_ok_inv in E as (file_size & w3 & _ & E).
  apply bind_ok_inv in E as (has & w4 & _ & E).
  apply bind_ok_inv in E as (df & w5 & _ & E).
  apply bind_ok_inv in E as (streams & w6 & _ & E).
  apply bind_ok_inv in E as (n & w7 & _ & E).
  injection E as <- _. right. unfold keys.
  rewrite !dom_insert_L, dom_empty_L. set_solver.
Qed.

Lemma probe_after_run
  (env : Env) (file_path : string) (w : world)
  (stdout stderr : string) (fs : gmap string Z) :
  os_spawn env (probe_cmd file_path) (files w) = None ->
  os_wait env (probe_cmd file_path) PROBE_TIMEOUT (files w)
  = (Exited 0 stdout stderr, fs) ->
  exists w1,
    files w1 = fs /\
    subprocess_run env (probe_cmd file_path) PROBE_TIMEOUT w
    = (Ok (0%Z, stdout, stderr), w1).
Proof.
  intros Hs Hw. pose proof (run_waits env _ _ w _ fs Hs Hw) as Hrun.
  cbn beta iota in Hrun. eexists. split; [|exact Hrun]. reflexivity.
Qed.

(** X11. A duration that [float] cannot read (the inspection tool
    prints ["N/A"] for some files) loses the whole record: the probe
    returns the error record, without the size and the stream count it
    had. *)
Theorem unreadable_duration_loses_the_record
  (env : Env) (file_path : string) (w : world)
  (stdout stderr : string) (fs : gmap string Z)
  (info fmt : gmap string pyval) (file_size : Z) (text : string) :
  os_spawn env (probe_cmd file_path) (files w) = None ->
  os_wait env (probe_cmd file_path) PROBE_TIMEOUT (files w)
  = (Exited 0 stdout stderr, fs) ->
  json_loads env stdout = Some (PDict info) ->
  fs !! file_path = Some file_size ->
  info !! "format" = Some (PDict fmt) ->
  fmt !! "duration" = Some (PStr text) ->
  float_of_str env text = None ->
  fst (_get_video_info env file_path w)
  = Ok (error_info ("Failed to get video info: " +:+ exc_text env ValueError)).
Proof.
  intros Hs Hw Hj Hsz Hf Hd Hfl.
  destruct (probe_after_run env file_path w stdout stderr fs Hs Hw)
    as (w1 & Hfs & Hrun).
  unfold _get_video_info.
  erewrite try_except_raise; cycle 1.
  { rewrite (bind_ok _ _ _ _ _ Hrun). cbn beta iota. cbn [Z.eqb negb].
    rewrite Hj.
    unfold os_path_getsize, py_contains, py_getitem, py_get, py_float, bind, ret, raise.
    rewrite Hfs, Hsz, Hf.
    rewrite (bool_decide_true (is_Some (Some (PDict fmt)))) by eauto.
    cbn beta iota. rewrite Hd. cbn beta iota. rewrite Hfl. reflexivity. }
  reflexivity.
Qed.

Lemma unreadable_duration_loses_the_record_witness :
  fst (_get_video_info
         (with_json (fun _ => Some (PDict {[ "format" := PDict {[ "duration" := PStr "N/A" ]} ]}))
                    base_env)
         "/tmp/in.mp4" (one_file_world "/tmp/in.mp4" 1000))
  = Ok (error_info "Failed to get video info: error").
Proof.
  apply (unreadable_duration_loses_the_record
           (with_json (fun _ => Some (PDict {[ "format" := PDict {[ "duration" := PStr "N/A" ]} ]}))
                      base_env)
           "/tmp/in.mp4" (one_file_world "/tmp/in.mp4" 1000) "" ""
           {[ "/tmp/in.mp4" := 1000%Z ]}
           {[ "format" := PDict {[ "duration" := PStr "N/A" ]} ]}
           {[ "duration" := PStr "N/A" ]} 1000 "N/A");
    reflexivity.
Defined.

(** X12. A document without a [format] section still gives the full
    record: [duration] and [format] are present with the value [None],
    beside the size of the file and the number of streams. *)
Theorem probe_without_format_section
  (env : Env) (file_path : string) (w : world)
  (stdout stderr : string) (fs : gmap string Z)
  (info : gmap string pyval) (file_size : Z) (streams : list pyval) :
  os_spawn env (probe_cmd file_path) (files w) = None ->
  os_wait env (probe_cmd file_path) PROBE_TIMEOUT (files w)
  = (Exited 0 stdout stderr, fs) ->
  json_loads env stdout = Some (PDict info) ->
  fs !! file_path = Some file_size ->
  info !! "format" = None ->
  info !! "streams" = Some (PList streams) ->
  fst (_get_video_info env file_path w)
  = Ok (PDict (<[ "file_size" := PInt file_size ]>
              (<[ "duration" := PNone ]>
              (<[ "format" := PNone ]>
              (<[ "streams" := PInt (Z.of_nat (length streams)) ]> ∅))))).
Proof.
  intros Hs Hw Hj Hsz Hf Hst.
  destruct (probe_after_run env file_path w stdout stderr fs Hs Hw)
    as (w1 & Hfs & Hrun).
  unfold _get_video_info.
  erewrite try_except_ok; cycle 1.
  { rewrite (bind_ok _ _ _ _ _ Hrun). cbn beta iota. cbn [Z.eqb negb].
    rewrite Hj.
    unfold os_path_getsize, py_contains, py_get, py_len, bind, ret.
    rewrite Hfs, Hsz, Hf.
    rewrite (bool_decide_false (is_Some None)) by (intros [? ?]; discriminate).
    cbn beta iota. rewrite Hst. reflexivity. }
  reflexivity.
Qed.

Lemma probe_without_format_section_witness :
  fst (_get_video_info
         (with_json (fun _ => Some (PDict {[ "streams" := PList [PDict ∅; PDict ∅] ]}))
                    base_env)
         "/tmp/in.mp4" (one_file_world "/tmp/in.mp4" 1000))
  = Ok (PDict (<[ "file_size" := PInt 1000 ]>
              (<[ "duration" := PNone ]>
              (<[ "format" := PNone ]>
              (<[ "streams" := PInt 2 ]> ∅))))).
Proof.
  apply (probe_without_format_section
           (with_json (fun _ => Some (PDict {[ "streams" := PList [PDict ∅; PDict ∅] ]}))
                      base_env)
           "/tmp/in.mp4" (one_file_world "/tmp/in.mp4" 1000) "" ""
           {[ "/tmp/in.mp4" := 1000%Z ]}
           {[ "streams" := PList [PDict ∅; PDict ∅] ]} 1000 [PDict ∅; PDict ∅]);
    reflexivity.
Defined.

(** ** [app/main.py]: [save_upload_file] and the handler *)

Section MainSteps.

Variable env : Env.

Lemma parse_options_pure {T} (f : world -> T) (options : string) :
  preserves f (parse_options env options).
Proof.
  intros w. unfold parse_options.
  destruct (json_loads env options) as [d|]; [|reflexivity].
  destruct (pydantic_fields env d) as [[v fmt]|]; [|reflexivity].
  now destruct (validate_fields v fmt).
Qed.

Lemma validate_file_size_pure {T} (f : world -> T) (file : UploadFile) :
  preserves f (validate_file_size file).
Proof.
  intros w. unfold validate_file_size. destruct (size file) as [n|]; [|reflexivity].
  now destruct (negb (n =? 0)%Z && (MAX_FILE_SIZE <? n)%Z).
Qed.

Lemma validate_file_extension_pure {T} (f : world -> T) (name : string) :
  preserves f (validate_file_extension env name).
Proof.
  intros w. unfold validate_file_extension. destruct (String.eqb name ""); [reflexivity|].
  now destruct (negb (list_in (splitext_ext (str_lower env name)) ALLOWED_EXTENSIONS)).
Qed.

Lemma validate_file_type_pure {T} (f : world -> T) (path : string) :
  preserves f (validate_file_type env path).
Proof.
  intros w. unfold validate_file_type, bind, try_except, ret, raise.
  destruct (mime_from_file env path) as [t|]; [|reflexivity].
  now destruct (negb (existsb (fun video_type => str_in video_type t) video_types)).
Qed.

Lemma save_keeps_events (upload_file : UploadFile) :
  preserves events (save_upload_file env upload_file).
Proof.
  intros w. unfold save_upload_file, try_except, bind, modify, ret, raise.
  now destruct (content upload_file).
Qed.

Lemma receive_keeps_events (file : UploadFile) (options : string) :
  preserves events (receive env file options).
Proof.
  unfold receive.
  apply preserves_bind; [apply parse_options_pure|]. intros o.
  apply preserves_bind; [apply validate_file_size_pure|]. intros _.
  apply preserves_bind; [apply validate_file_extension_pure|]. intros _.
  apply preserves_bind; [apply save_keeps_events|]. intros name.
  apply preserves_ret.
Qed.

Lemma cleanup_one_keeps_events (file_path : option string) :
  preserves events (cleanup_one env file_path).
Proof.
  intros w. unfold cleanup_one. destruct file_path as [p|]; [|reflexivity].
  destruct (negb (String.eqb p "")); [|reflexivity].
  unfold bind, os_path_exists, try_except, os_remove.
  destruct (files w !! p) as [n|] eqn:E.
  - rewrite (bool_decide_true (is_Some (Some n))) by eauto. rewrite E.
    now destruct (remove_error env p (files w)) as [[k text]|].
  - now rewrite (bool_decide_false (is_Some None)) by (intros [? ?]; discriminate).
Qed.

Lemma cleanup_keeps_events (l : locals) : preserves events (cleanup env l).
Proof.
  unfold cleanup. apply preserves_bind; [apply cleanup_one_keeps_events|].
  intros _. apply cleanup_one_keeps_events.
Qed.

(** The name under which an upload is saved, and the file it leaves. *)
Lemma save_upload_file_runs (upload_file : UploadFile) (w : world) :
  let name :=
    os_path_join TEMP_DIR (tmp_basename env +:+ splitext_ext (filename upload_file)) in
  save_upload_file env upload_file w =
  match content upload_file with
  | Some n => (Ok name, set_files (<[ name := n ]> (files w)) w)
  | None =>
      (Raise (Custom (FileValidationError
                        ("Failed to save uploaded file: " +:+ exc_text env OtherError))),
       set_files (<[ name := 0%Z ]> (files w)) w)
  end.
Proof.
  cbv zeta. unfold save_upload_file, try_except, bind, modify, ret, raise, set_files.
  destruct (content upload_file) as [n|]; cbn; [|reflexivity].
  now rewrite insert_insert_eq.
Qed.

End MainSteps.

(** X13. An upload that cannot be read leaves its temporary file: when
    the options and the file name pass their checks and [read()] raises,
    the handler answers 400 and the empty file [tempfile] created stays,
    the only change to the files; no process is spawned. *)
Theorem unreadable_upload_leaves_temp_file
  (env : Env) (file : UploadFile) (options : string) (w : world)
  (o : CompressionOptions) :
  fst (parse_options env options w) = Ok o ->
  fst (validate_file_size file w) = Ok true ->
  fst (validate_file_extension env (filename file) w) = Ok true ->
  content file = None ->
  let name := os_path_join TEMP_DIR (tmp_basename env +:+ splitext_ext (filename file)) in
  Main.compress_video env file options w
  = (Raise (HTTPException 400
              ("Failed to save uploaded file: " +:+ exc_text env OtherError)),
     set_files (<[ name := 0%Z ]> (files w)) w).
Proof.
  intros Hp Hs He Hc name.
  assert (forall {A} (m : M A) a, preserves id m -> fst (m w) = Ok a -> m w = (Ok a, w))
    as Hpure.
  { intros A m a Hm H. specialize (Hm w). unfold id in Hm.
    destruct (m w) as [r w1]. cbn in *. now subst. }
  apply Hpure in Hp; [|apply parse_options_pure].
  apply Hpure in Hs; [|apply validate_file_size_pure].
  apply Hpure in He; [|apply validate_file_extension_pure].
  unfold Main.compress_video.
  assert (receive env file options w
          = (Raise (Custom (FileValidationError
                              ("Failed to save uploaded file: " +:+ exc_text env OtherError))),
             set_files (<[ name := 0%Z ]> (files w)) w)) as ->.
  { unfold receive.
    rewrite (bind_ok _ _ _ _ _ Hp), (bind_ok _ _ _ _ _ Hs), (bind_ok _ _ _ _ _ He).
    apply bind_raise. rewrite save_upload_file_runs, Hc. reflexivity. }
  reflexivity.
Qed.

Lemma unreadable_upload_leaves_temp_file_witness :
  Main.compress_video base_env broken_clip "{}" empty_world
  = (Raise (HTTPException 400 "Failed to save uploaded file: error"),
     set_files (<[ "/tmp/tmpab12cd34.mp4" := 0%Z ]> ∅) empty_world).
Proof.
  apply (unreadable_upload_leaves_temp_file base_env broken_clip "{}" empty_world
           (mkCompressionOptions [] "mp4"));
    reflexivity.
Defined.

Lemma service_output_path
  (env : Env) (input_path output_format : string) (args : list string)
  (w w' : world) (output_path : string) (metadata : pyval) :
  FFmpegService.compress_video env input_path args output_format w
  = (Ok (output_path, metadata), w') ->
  output_path = _generate_output_path env output_format.
Proof.
  unfold FFmpegService.compress_video.
  destruct (validate_options args) as [[] msg]; cbn beta iota; cbn [negb];
    [|discriminate].
  intros H.
  apply bind_ok_inv in H as (d_in & w1 & _ & H).
  apply bind_ok_inv in H as (t0 & w2 & _ & H).
  apply bind_ok_inv in H as ([] & w3 & _ & H).
  apply bind_ok_inv in H as (t1 & w4 & _ & H).
  apply bind_ok_inv in H as (d_out & w5 & _ & H).
  now injection H as <- _ _.
Qed.

Lemma transcode_output_path
  (env : Env) (input : string) (o : CompressionOptions) (w w' : world)
  (sz : Z) (st : spec_float) (output : string) (metadata : pyval) :
  transcode env input o w = (Ok (sz, st, (output, metadata)), w') ->
  output = _generate_output_path env (output_format o).
Proof.
  unfold transcode. intros H.
  apply bind_ok_inv in H as (b & w1 & _ & H).
  apply bind_ok_inv in H as (sz' & w2 & _ & H).
  apply bind_ok_inv in H as (st' & w3 & _ & H).
  apply bind_ok_inv in H as ([out meta] & w4 & Hsvc & H).
  injection H as _ _ <- _ _.
  now apply service_output_path in Hsvc.
Qed.

(** A round of the [finally] loop never raises. *)
Lemma cleanup_one_returns (env : Env) (file_path : option string) (w : world) :
  fst (cleanup_one env file_path w) = Ok tt.
Proof.
  unfold cleanup_one. destruct file_path as [p|]; [|reflexivity].
  destruct (negb (String.eqb p "")); [|reflexivity].
  unfold bind, os_path_exists, try_except, os_remove.
  destruct (files w !! p) as [n|] eqn:E.
  - rewrite (bool_decide_true (is_Some (Some n))) by eauto. rewrite E.
    now destruct (remove_error env p (files w)) as [[k text]|].
  - now rewrite (bool_decide_false (is_Some None)) by (intros [? ?]; discriminate).
Qed.

(** X14. The [finally] block removes what the handler knows of, where
    [os.remove] does not raise: once the upload is saved, no exit path
    leaves the input copy when its removal does not raise; and once the
    service has returned the output path, the output file is removed as
    well when its removal does not raise, whether the upload to storage
    and the response succeed or not.  The block itself never raises: the
    answer of the handler is the one its [try] block and [except] clauses
    gave. *)
Theorem handler_removes_known_files
  (env : Env) (file : UploadFile) (options : string) (w w1 : world)
  (o : CompressionOptions) (input : string) :
  receive env file options w = (Ok (o, input), w1) ->
  let w' := snd (Main.compress_video env file options w) in
  ((forall fs, remove_error env input fs = None) -> files w' !! input = None) /\
  (forall sz st output metadata w2,
      transcode env input o w1 = (Ok (sz, st, (output, metadata)), w2) ->
      (forall fs, remove_error env output fs = None) ->
      files w' !! output = None) /\
  (forall l w0, fst (cleanup env l w0) = Ok tt).
Proof.
  intros Hrecv w'.
  split; [intros Hrm; now apply (handler_removes_input env file options w w1 o)|].
  split.
  - intros sz st output metadata w2 Htr Hrm.
    assert (output <> "") as Hne.
    { rewrite (transcode_output_path _ _ _ _ _ _ _ _ _ Htr). discriminate. }
    unfold w', Main.compress_video. rewrite Hrecv, Htr.
    destruct (deliver env o sz st output metadata w2) as [r w3]. cbn [snd].
    unfold cleanup. cbn [input_file_path output_file_path]. unfold bind at 1.
    pose proof (cleanup_one_returns env (Some input) w3) as Hret.
    destruct (cleanup_one env (Some input) w3) as [[[]|e] w4]; [|discriminate].
    rewrite cleanup_one_files by (exact Hne || apply Hrm). apply lookup_delete_eq.
  - intros l w0. unfold cleanup, bind.
    pose proof (cleanup_one_returns env (input_file_path l) w0) as Hret.
    destruct (cleanup_one env (input_file_path l) w0) as [[[]|e] w4]; [|discriminate].
    apply cleanup_one_returns.
Qed.

Lemma handler_removes_known_files_witness :
  files (snd (Main.compress_video failing_storage_env clip "{}" empty_world))
  !! "/tmp/tmpab12cd34.mp4" = None.
Proof.
  destruct (handler_removes_known_files failing_storage_env clip "{}" empty_world
              (set_files {[ "/tmp/tmpab12cd34.mp4" := 1000%Z ]} empty_world)
              (mkCompressionOptions [] "mp4") "/tmp/tmpab12cd34.mp4" eq_refl)
    as [H _].
  apply H. intros fs. reflexivity.
Defined.

(** ** The answers of the handler *)

Section Raises.

Context {P : exn -> Prop}.

Lemma raises_only_ret {A} (a : A) : raises_only P (ret a).
Proof. intros w e w' H. discriminate. Qed.

Lemma raises_only_raise {A} (e : exn) : P e -> raises_only P (@raise A e).
Proof. intros He w e' w' [= <- _]. exact He. Qed.

Lemma raises_only_bind {A B} (m : M A) (k : A -> M B) :
  raises_only P m -> (forall a, raises_only P (k a)) -> raises_only P (bind m k).
Proof.
  intros Hm Hk w e w' H. unfold bind in H.
  destruct (m w) as [[a|e1] w1] eqn:E.
  - exact (Hk a w1 e w' H).
  - injection H as <- _. exact (Hm w e1 w1 E).
Qed.

Lemma raises_only_try_except {A} (m : M A) (h : exn -> M A) :
  (forall e, raises_only P (h e)) -> raises_only P (try_except m h).
Proof.
  intros Hh w e w' H. unfold try_except in H.
  destruct (m w) as [[a|e1] w1]; [discriminate|].
  exact (Hh e1 w1 e w' H).
Qed.

End Raises.

Lemma execute_raises_custom (env : Env) (cmd : list string) :
  raises_only (fun e => exists c, e = Custom c) (_execute_ffmpeg env cmd).
Proof.
  intros w e w' H.
  unfold _execute_ffmpeg, bind, Popen, try_except, communicate, kill, modify, raise in H.
  destruct (os_spawn env cmd (files w)) as [[k text]|].
  - destruct k; injection H as <- _; eexists; reflexivity.
  - cbn [files log_event] in H.
    destruct (os_wait env cmd MAX_PROCESSING_TIME (files w))
      as [[|k text|rc out err] fs].
    + injection H as <- _. eexists. reflexivity.
    + destruct k; injection H as <- _; eexists; reflexivity.
    + destruct (negb (rc =? 0)%Z); [|discriminate].
      injection H as <- _. eexists. reflexivity.
Qed.

Section HandlerRaises.

Variable env : Env.

Lemma receive_raises (file : UploadFile) (options : string) :
  raises_only body_exception (receive env file options).
Proof.
  unfold receive.
  apply raises_only_bind.
  { intros w e w' H. unfold parse_options in H.
    destruct (json_loads env options) as [d|];
      [|injection H as <- _; now left].
    destruct (pydantic_fields env d) as [[v fmt]|];
      [|injection H as <- _; now left].
    destruct (validate_fields v fmt); [discriminate|].
    injection H as <- _. now left. }
  intros o. apply raises_only_bind.
  { intros w e w' H. unfold validate_file_size in H.
    destruct (size file) as [n|]; [|discriminate].
    destruct (negb (n =? 0)%Z && (MAX_FILE_SIZE <? n)%Z); [|discriminate].
    injection H as <- _. now right. }
  intros _. apply raises_only_bind.
  { intros w e w' H. unfold validate_file_extension in H.
    destruct (String.eqb (filename file) ""); [injection H as <- _; now left|].
    destruct (negb (list_in _ ALLOWED_EXTENSIONS)); [|discriminate].
    injection H as <- _. now left. }
  intros _. apply raises_only_bind; [|intros name; apply raises_only_ret].
  intros w e w' H. rewrite save_upload_file_runs in H.
  destruct (content file); [discriminate|]. now injection H as <- _.
Qed.

Lemma validate_file_type_raises (path : string) :
  raises_only body_exception (validate_file_type env path).
Proof.
  unfold validate_file_type.
  apply raises_only_bind; [|intros _; apply raises_only_ret].
  apply raises_only_try_except. intros e. apply raises_only_raise. now left.
Qed.

Lemma getsize_raises (path : string) :
  raises_only body_exception (os_path_getsize env path).
Proof.
  intros w e w' H. unfold os_path_getsize in H.
  destruct (files w !! path); [discriminate|]. now injection H as <- _.
Qed.

Lemma time_never_raises : raises_only body_exception (time_time env).
Proof. intros w e w' H. discriminate. Qed.

Lemma service_raises (input_path output_format : string) (args : list string) :
  raises_only body_exception
    (FFmpegService.compress_video env input_path args output_format).
Proof.
  unfold FFmpegService.compress_video.
  destruct (validate_options args) as [[] msg]; cbn beta iota; cbn [negb];
    [|now apply raises_only_raise].
  apply raises_only_bind.
  { intros w e w' H. destruct (probe_never_raises env input_path w) as (d & w1 & Hd).
    congruence. }
  intros d_in. apply raises_only_bind; [apply time_never_raises|].
  intros t0. apply raises_only_bind.
  { intros w e w' H. destruct (execute_raises_custom env _ w e w' H) as (c & ->).
    exact I. }
  intros _. apply raises_only_bind; [apply time_never_raises|].
  intros t1. apply raises_only_bind; [|intros d; apply raises_only_ret].
  intros w e w' H.
  destruct (probe_never_raises env (_generate_output_path env output_format) w)
    as (d & w1 & Hd).
  congruence.
Qed.

Lemma transcode_raises (input : string) (o : CompressionOptions) :
  raises_only body_exception (transcode env input o).
Proof.
  unfold transcode.
  apply raises_only_bind; [apply validate_file_type_raises|]. intros _.
  apply raises_only_bind; [apply getsize_raises|]. intros sz.
  apply raises_only_bind; [apply time_never_raises|]. intros st.
  apply raises_only_bind; [apply service_raises|]. intros out.
  apply raises_only_ret.
Qed.

Lemma py_get_raises (x : pyval) (key : string) (default : pyval) :
  raises_only body_exception (py_get env x key default).
Proof.
  intros w e w' H. destruct x; try discriminate; now injection H as <- _.
Qed.

Lemma py_float_raises (x : pyval) : raises_only body_exception (py_float env x).
Proof.
  intros w e w' H. destruct x; cbn in H; try discriminate;
    try (now injection H as <- _).
  - destruct (float_of_Z z); try discriminate. now injection H as <- _.
  - destruct (float_of_str env s); [discriminate|]. now injection H as <- _.
Qed.

Lemma get2_raises (d : pyval) (k1 k2 : string) :
  raises_only body_exception (get2 env d k1 k2).
Proof.
  unfold get2. apply raises_only_bind; [apply py_get_raises|].
  intros inner. apply py_get_raises.
Qed.

Lemma deliver_raises (o : CompressionOptions) (original_size : Z)
  (start_time : spec_float) (output : string) (metadata : pyval) :
  raises_only body_exception (deliver env o original_size start_time output metadata).
Proof.
  unfold deliver.
  apply raises_only_bind; [apply time_never_raises|]. intros t.
  apply raises_only_bind; [apply getsize_raises|]. intros sz.
  apply raises_only_bind.
  { destruct (storage_upload env output _); [now apply raises_only_raise|
                                              apply raises_only_ret]. }
  intros up. apply raises_only_bind; [apply get2_raises|]. intros d.
  apply raises_only_bind.
  { destruct d; try apply raises_only_ret;
      (apply raises_only_bind; [apply py_float_raises|intros x; apply raises_only_ret]). }
  intros duration. apply raises_only_bind; [apply get2_raises|]. intros fmt.
  apply raises_only_bind; [|intros x; apply raises_only_ret].
  destruct (pydantic_optional_str env fmt); [apply raises_only_ret|].
  now apply raises_only_raise.
Qed.

Lemma deliver_status (o : CompressionOptions) (original_size : Z)
  (start_time : spec_float) (output : string) (metadata : pyval)
  (w w' : world) (response : CompressionResponse) :
  deliver env o original_size start_time output metadata w = (Ok response, w') ->
  status response = "success".
Proof.
  unfold deliver. intros H.
  apply bind_ok_inv in H as (t & w1 & _ & H).
  apply bind_ok_inv in H as (sz & w2 & _ & H).
  apply bind_ok_inv in H as (up & w3 & _ & H).
  apply bind_ok_inv in H as (d & w4 & _ & H).
  apply bind_ok_inv in H as (duration & w5 & _ & H).
  apply bind_ok_inv in H as (fmt & w6 & _ & H).
  apply bind_ok_inv in H as (original_format & w7 & _ & H).
  now injection H as <- _.
Qed.

Lemma status_of_error_code_range (code : string) :
  In (status_of_error_code code) [400; 408; 422; 500]%Z.
Proof.
  unfold status_of_error_code.
  repeat match goal with
         | |- context [if String.eqb ?a ?b then _ else _] => destruct (String.eqb a b)
         end; cbn; tauto.
Qed.

Lemma handle_exception_status (e : exn) :
  body_exception e ->
  exists status_code detail,
    handle_exception env e = HTTPException status_code detail /\
    In status_code [400; 408; 413; 422; 500]%Z.
Proof.
  intros He. destruct e as [c|s d|k t]; cbn.
  - do 2 eexists. split; [reflexivity|].
    pose proof (status_of_error_code_range (error_code c)) as H. cbn in *. tauto.
  - do 2 eexists. split; [reflexivity|]. cbn in *. destruct He as [->| ->]; tauto.
  - do 2 eexists. split; [reflexivity|]. cbn. tauto.
Qed.

End HandlerRaises.

(** X15. What the handler answers: a response with the status
    ["success"], or an [HTTPException] whose status is one of 400, 408,
    413, 422 and 500; no other exception leaves it. *)
Theorem handler_answers
  (env : Env) (file : UploadFile) (options : string) (w : world) :
  match fst (Main.compress_video env file options w) with
  | Ok response => status response = "success"
  | Raise (HTTPException status_code _) =>
      In status_code [400; 408; 413; 422; 500]%Z
  | Raise _ => False
  end.
Proof.
  assert (forall e, body_exception e ->
                    match handle_exception env e with
                    | HTTPException s _ => In s [400; 408; 413; 422; 500]%Z
                    | _ => False
                    end) as Hh.
  { intros e He. destruct (handle_exception_status env e He) as (s & d & -> & Hs).
    exact Hs. }
  unfold Main.compress_video.
  destruct (receive env file options w) as [[[o input]|e] w1] eqn:E1; cbn [fst].
  2: { apply Hh. exact (receive_raises env file options w e w1 E1). }
  destruct (transcode env input o w1) as [[[[sz st] [output metadata]]|e] w2] eqn:E2;
    cbn [fst].
  2: { apply Hh. exact (transcode_raises env input o w1 e w2 E2). }
  destruct (deliver env o sz st output metadata w2) as [[response|e] w3] eqn:E3;
    cbn [fst].
  - exact (deliver_status env _ _ _ _ _ _ _ _ E3).
  - apply Hh. exact (deliver_raises env _ _ _ _ _ w2 e w3 E3).
Qed.

Lemma received_file_exists
  (env : Env) (file : UploadFile) (options : string) (w w1 : world)
  (o : CompressionOptions) (input : string) :
  receive env file options w = (Ok (o, input), w1) ->
  exists n, files w1 !! input = Some n.
Proof.
  unfold receive. intros H.
  apply bind_ok_inv in H as (o' & wa & _ & H).
  apply bind_ok_inv in H as (b1 & wb & _ & H).
  apply bind_ok_inv in H as (b2 & wc & _ & H).
  apply bind_ok_inv in H as (name & wd & Hsave & H).
  injection H as _ <- <-.
  rewrite save_upload_file_runs in Hsave.
  destruct (content file) as [n|]; [|discriminate].
  injection Hsave as <- <-. exists n. cbn. apply lookup_insert_eq.
Qed.

(** X16. Rejected options at the handler: when the upload is saved and
    is a video, and the validator rejects the arguments, the handler
    answers 400 with the reason of the validator and no process has been
    spawned; the input copy is removed when [os.remove] does not raise
    for it. *)
Theorem handler_rejects_options_without_spawning
  (env : Env) (file : UploadFile) (options : string) (w w1 : world)
  (o : CompressionOptions) (input : string) :
  receive env file options w = (Ok (o, input), w1) ->
  fst (validate_file_type env input w1) = Ok true ->
  fst (validate_options (ffmpeg_args o)) = false ->
  fst (Main.compress_video env file options w)
  = Raise (HTTPException 400 (snd (validate_options (ffmpeg_args o)))) /\
  events (snd (Main.compress_video env file options w)) = events w /\
  ((forall fs, remove_error env input fs = None) ->
   files (snd (Main.compress_video env file options w)) !! input = None).
Proof.
  intros Hrecv Htype Hrej.
  destruct (received_file_exists _ _ _ _ _ _ _ Hrecv) as (n & Hn).
  assert (validate_file_type env input w1 = (Ok true, w1)) as Htype'.
  { pose proof (validate_file_type_pure env id input w1) as Hp. unfold id in Hp.
    destruct (validate_file_type env input w1) as [r wx]. cbn in *. now subst. }
  assert (exists w2,
             events w2 = events w1 /\
             transcode env input o w1
             = (Raise (Custom (InvalidOptionsError
                                 (snd (validate_options (ffmpeg_args o))))), w2))
    as (w2 & Hev & Htr).
  { eexists. split; [|unfold transcode].
    2: { rewrite (bind_ok _ _ _ _ _ Htype').
         erewrite bind_ok by (unfold os_path_getsize; rewrite Hn; reflexivity).
         erewrite bind_ok by reflexivity.
         apply bind_raise. unfold FFmpegService.compress_video.
         destruct (validate_options (ffmpeg_args o)) as [v msg].
         cbn [fst snd] in *. subst v. reflexivity. }
    reflexivity. }
  split; [|split].
  - unfold Main.compress_video. rewrite Hrecv, Htr. reflexivity.
  - unfold Main.compress_video. rewrite Hrecv, Htr. cbn [snd].
    rewrite cleanup_keeps_events, Hev.
    pose proof (receive_keeps_events env file options w) as Hr.
    now rewrite Hrecv in Hr.
  - intros Hrm. now apply (handler_removes_input env file options w w1 o).
Qed.

Lemma handler_rejects_options_without_spawning_witness :
  fst (Main.compress_video
         (with_json (fun _ => Some (PDict ∅))
            (with_pydantic (fun _ => Some (["-threads"; "4"], "mp4")) base_env))
         clip "{}" empty_world)
  = Raise (HTTPException 400 "Option not allowed: -threads").
Proof.
  apply (handler_rejects_options_without_spawning
           (with_json (fun _ => Some (PDict ∅))
              (with_pydantic (fun _ => Some (["-threads"; "4"], "mp4")) base_env))
           clip "{}" empty_world
           (set_files {[ "/tmp/tmpab12cd34.mp4" := 1000%Z ]} empty_world)
           (mkCompressionOptions ["-threads"; "4"] "mp4") "/tmp/tmpab12cd34.mp4");
    reflexivity.
Defined.

(** ** The language of the safe patterns *)

Lemma append_nil_r (s : string) : s +:+ "" = s.
Proof.
  induction s as [|c s IH]; [reflexivity|].
  change (String c s +:+ "") with (String c (s +:+ "")). now rewrite IH.
Qed.

Lemma append_assoc (a b c : string) : (a +:+ b) +:+ c = a +:+ b +:+ c.
Proof.
  induction a as [|x a IH]; [reflexivity|].
  change ((String x a +:+ b) +:+ c) with (String x ((a +:+ b) +:+ c)).
  now rewrite IH.
Qed.

Lemma append_eq_nil (a b : string) : a +:+ b = "" -> a = "" /\ b = "".
Proof. destruct a; [intros H; split; [reflexivity|exact H]|discriminate]. Qed.

Lemma nullable_lang (r : regex) : nullable r = true <-> lang r "".
Proof.
  induction r as [| |c| |r1 IH1 r2 IH2|r1 IH1 r2 IH2|r IH]; cbn [nullable].
  - split; [discriminate|intros H; inversion H].
  - split; [constructor|reflexivity].
  - split; [discriminate|intros H; inversion H].
  - split; [discriminate|intros H; inversion H].
  - split.
    + intros H. apply andb_true_iff in H as [H1 H2].
      change "" with ("" +:+ ""). constructor; [now apply IH1|now apply IH2].
    + intros H. inversion H as [| | |? ? s1 s2 L1 L2| | | |]. subst.
      match goal with
      | E : _ +:+ _ = "" |- _ => apply append_eq_nil in E as [-> ->]
      end.
      apply andb_true_iff. split; [now apply IH1|now apply IH2].
  - split.
    + intros H. apply orb_true_iff in H as [H|H];
        [apply LAltL; now apply IH1|apply LAltR; now apply IH2].
    + intros H. apply orb_true_iff.
      inversion H; subst; [left; now apply IH1|right; now apply IH2].
  - split; [constructor|reflexivity].
Qed.

Lemma deriv_sound (c : ascii) (r : regex) :
  forall s, lang (deriv c r) s -> lang r (String c s).
Proof.
  induction r; cbn; intros s H.
  - inversion H.
  - inversion H.
  - destruct (Ascii.eqb c c0) eqn:E; inversion H. subst.
    apply Ascii.eqb_eq in E. subst. constructor.
  - destruct (is_digit c) eqn:E; inversion H. subst. now constructor.
  - destruct (nullable r1) eqn:N.
    + inversion H as [| | | |? ? ? L|? ? ? L| |]; subst.
      * inversion L as [| | |? ? s1 s2 L1 L2| | | |]; subst.
        change (String c (s1 +:+ s2)) with (String c s1 +:+ s2).
        constructor; [now apply IHr1|exact L2].
      * change (String c s) with ("" +:+ String c s).
        constructor; [now apply nullable_lang|now apply IHr2].
    + inversion H as [| | |? ? s1 s2 L1 L2| | | |]; subst.
      change (String c (s1 +:+ s2)) with (String c s1 +:+ s2).
      constructor; [now apply IHr1|exact L2].
  - inversion H; subst; [apply LAltL; now apply IHr1|apply LAltR; now apply IHr2].
  - inversion H as [| | |? ? s1 s2 L1 L2| | | |]; subst.
    change (String c (s1 +:+ s2)) with (String c s1 +:+ s2).
    apply LStarApp; [now apply IHr|exact L2].
Qed.

Lemma deriv_complete (r : regex) (s0 : string) :
  lang r s0 -> forall c s, s0 = String c s -> lang (deriv c r) s.
Proof.
  induction 1 as [|c0|c0 Hd|r1 r2 s1 s2 L1 IH1 L2 IH2|r1 r2 s L IH|r1 r2 s L IH
                  |r|r s1 s2 L1 IH1 L2 IH2];
    intros c t E; cbn.
  - discriminate.
  - injection E as -> <-. rewrite Ascii.eqb_refl. constructor.
  - injection E as -> <-. rewrite Hd. constructor.
  - destruct s1 as [|d s1].
    + change ("" +:+ s2) with s2 in E. subst s2.
      assert (nullable r1 = true) as -> by now apply nullable_lang.
      apply LAltR. now apply IH2.
    + change (String d s1 +:+ s2) with (String d (s1 +:+ s2)) in E.
      injection E as -> <-.
      destruct (nullable r1).
      * apply LAltL. constructor; [now apply IH1|exact L2].
      * constructor; [now apply IH1|exact L2].
  - apply LAltL. now apply IH.
  - apply LAltR. now apply IH.
  - discriminate.
  - destruct s1 as [|d s1].
    + change ("" +:+ s2) with s2 in E. now apply IH2.
    + change (String d s1 +:+ s2) with (String d (s1 +:+ s2)) in E.
      injection E as -> <-.
      constructor; [now apply IH1|exact L2].
Qed.

(** The matcher decides the language. *)
Lemma matches_lang (s : string) : forall r, matches r s = true <-> lang r s.
Proof.
  induction s as [|c s IH]; intros r; cbn.
  - apply nullable_lang.
  - rewrite IH. split; [apply deriv_sound|].
    intros H. now apply (deriv_complete r (String c s) H).
Qed.

Lemma lang_lit (w s : string) : lang (Lit w) s <-> s = w.
Proof.
  revert s. induction w as [|c w IH]; intros s; cbn; split; intros H.
  - now inversion H.
  - subst. constructor.
  - inversion H as [| | |? ? s1 s2 L1 L2| | | |]; subst.
    inversion L1; subst. apply IH in L2. now subst.
  - subst. change (String c w) with (String c "" +:+ w).
    constructor; [constructor|now apply IH].
Qed.

Lemma lang_star_digit (s : string) : lang (Star Digit) s <-> str_forall is_digit s = true.
Proof.
  split.
  - intros H. remember (Star Digit) as r eqn:R.
    induction H as [| | | | | | |r s1 s2 L1 _ L2 IH2]; try discriminate; [reflexivity|].
    injection R as ->. inversion L1 as [| |c Hd| | | | |]; subst.
    change (String c "" +:+ s2) with (String c s2). cbn [str_forall].
    now rewrite Hd, IH2.
  - induction s as [|c s IH]; cbn; intros H; [constructor|].
    apply andb_true_iff in H as [Hc Hs].
    change (String c s) with (String c "" +:+ s).
    apply LStarApp; [now constructor|now apply IH].
Qed.

Lemma lang_digits (s : string) : lang (Plus Digit) s <-> digits1 s = true.
Proof.
  unfold Plus, digits1. split.
  - intros H. inversion H as [| | |? ? s1 s2 L1 L2| | | |]; subst.
    inversion L1 as [| |c Hd| | | | |]; subst.
    apply lang_star_digit in L2.
    change (String c "" +:+ s2) with (String c s2). cbn [str_forall String.eqb negb andb].
    now rewrite Hd, L2.
  - destruct s as [|c s]; [discriminate|]. cbn. intros H.
    apply andb_true_iff in H as [Hc Hs].
    change (String c s) with (String c "" +:+ s).
    constructor; [now constructor|now apply lang_star_digit].
Qed.

Lemma lang_alt_of_lits (ws : list string) (s : string) :
  lang (AltOf (map Lit ws)) s <-> In s ws.
Proof.
  induction ws as [|w ws IH]; cbn; split; intros H.
  - inversion H.
  - destruct H.
  - inversion H; subst; [left; symmetry; now apply lang_lit|right; now apply IH].
  - destruct H as [->|H]; [apply LAltL; now apply lang_lit|apply LAltR; now apply IH].
Qed.

Lemma lang_anchored (r : regex) (s : string) :
  re_match_anchored r s = true <->
  exists w, (s = w \/ s = w +:+ chr 10) /\ lang r w.
Proof.
  unfold re_match_anchored. rewrite matches_lang. split.
  - intros H. inversion H as [| | |? ? s1 s2 L1 L2| | | |]; subst.
    exists s1. split; [|exact L1].
    inversion L2 as [| | | |? ? ? L|? ? ? L| |]; subst; inversion L; subst.
    + left. now rewrite append_nil_r.
    + now right.
  - intros (w & [->| ->] & L).
    + rewrite <- (append_nil_r w). constructor; [exact L|]. apply LAltL. constructor.
    + constructor; [exact L|]. apply LAltR. constructor.
Qed.

(** X17. What [_is_safe_value] accepts, for a value of ASCII
    characters (on other text [\d] matches more digits than the ten the
    model has): an integer, one of the four codec names, one of the nine
    preset names, [WIDTHxHEIGHT] or [scale=WIDTH:HEIGHT] with nonempty
    runs of digits, each alone or followed by one newline (which [$]
    admits); nothing else. *)
Theorem safe_value_language (value : string) :
  is_ascii value = true ->
  (_is_safe_value value = true <->
   exists w, (value = w \/ value = w +:+ chr 10) /\ safe_word w).
Proof.
  intros _. unfold _is_safe_value, safe_patterns, safe_word.
  cbn [existsb]. rewrite orb_false_r.
  repeat rewrite orb_true_iff. rewrite !lang_anchored.
  split.
  - intros H.
    repeat match type of H with _ \/ _ => destruct H as [H|H] end;
      destruct H as (w & Hv & L); exists w; (split; [exact Hv|]).
    + left. now apply lang_digits.
    + right. left. apply lang_lit in L. subst. cbn. tauto.
    + right. left. apply lang_lit in L. subst. cbn. tauto.
    + right. left. apply lang_lit in L. subst. cbn. tauto.
    + right. left. apply lang_lit in L. subst. cbn. tauto.
    + right. right. left.
      now apply (lang_alt_of_lits
                   ["ultrafast"; "superfast"; "veryfast"; "faster"; "fast"; "medium";
                    "slow"; "slower"; "veryslow"]) in L.
    + right. right. right. left.
      inversion L as [| | |? ? a s2 La L2| | | |]; subst.
      inversion L2 as [| | |? ? x b Lx Lb| | | |]; subst.
      inversion Lx; subst.
      exists a, b. repeat split; now apply lang_digits.
    + right. right. right. right.
      inversion L as [| | |? ? p s2 Lp L2| | | |]; subst.
      apply (lang_lit "scale=") in Lp. subst p.
      inversion L2 as [| | |? ? a s3 La L3| | | |]; subst.
      inversion L3 as [| | |? ? x b Lx Lb| | | |]; subst.
      inversion Lx; subst.
      exists a, b. repeat split; now apply lang_digits.
  - intros (w & Hv & [H|[H|[H|[(a & b & -> & Ha & Hb)|(a & b & -> & Ha & Hb)]]]]).
    + left. exists w. split; [exact Hv|]. now apply lang_digits.
    + cbn in H.
      destruct H as [<-|[<-|[<-|[<-|[]]]]];
        [right; left|right; right; left|right; right; right; left
        |right; right; right; right; left];
        (eexists; split; [exact Hv|]; now apply lang_lit).
    + do 5 right. left. exists w. split; [exact Hv|].
      now apply (lang_alt_of_lits
                   ["ultrafast"; "superfast"; "veryfast"; "faster"; "fast"; "medium";
                    "slow"; "slower"; "veryslow"]).
    + do 6 right. left. eexists. split; [exact Hv|].
      constructor; [now apply lang_digits|].
      change ("x" +:+ b) with (String "x" "" +:+ b).
      constructor; [constructor|now apply lang_digits].
    + do 7 right. eexists. split; [exact Hv|].
      change ("scale=" +:+ a +:+ ":" +:+ b) with ("scale=" +:+ (a +:+ (String ":" "" +:+ b))).
      constructor; [now apply (lang_lit "scale=")|].
      constructor; [now apply lang_digits|].
      constructor; [constructor|now apply lang_digits].
Qed.

Lemma safe_value_language_witness :
  _is_safe_value ("1920x1080" +:+ chr 10) = true.
Proof.
  apply (safe_value_language ("1920x1080" +:+ chr 10)); [reflexivity|].
  exists "1920x1080". split; [now right|].
  do 3 right. left. exists "1920", "1080". repeat split.
Defined.

(** ** [FFmpegService._generate_output_path] *)

Lemma append_inj_length (a b x y : string) :
  String.length a = String.length b -> a +:+ x = b +:+ y -> a = b /\ x = y.
Proof.
  revert b. induction a as [|c a IH]; intros [|d b] Hl H; try discriminate.
  - now split.
  - change (String c a +:+ x) with (String c (a +:+ x)) in H.
    change (String d b +:+ y) with (String d (b +:+ y)) in H.
    injection H as -> H. injection Hl as Hl.
    destruct (IH b Hl H) as [-> ->]. now split.
Qed.

(** X18. Output paths do not collide: for identifiers of one length
    (the 32 digits of [uuid4().hex]), equal output paths mean equal
    identifiers and equal formats; and the output path is never the path
    of the saved input copy, whose name [tempfile] begins with [tmp]. *)
Theorem output_paths_do_not_collide (env1 env2 : Env) (format1 format2 : string) :
  String.length (uuid4_hex env1) = String.length (uuid4_hex env2) ->
  startswith (tmp_basename env1) "tmp" = true ->
  (_generate_output_path env1 format1 = _generate_output_path env2 format2 ->
   uuid4_hex env1 = uuid4_hex env2 /\ format1 = format2) /\
  (forall upload_file w name w',
      save_upload_file env1 upload_file w = (Ok name, w') ->
      name <> _generate_output_path env1 format1).
Proof.
  intros Hlen Htmp. split.
  - rewrite !output_path_shape. intros H.
    destruct (append_inj_length "/tmp/compressed_" "/tmp/compressed_" _ _ eq_refl H)
      as [_ H'].
    destruct (append_inj_length _ _ _ _ Hlen H') as [Hu Hf].
    split; [exact Hu|].
    now destruct (append_inj_length "." "." _ _ eq_refl Hf).
  - intros upload_file w name w' Hsave.
    rewrite save_upload_file_runs in Hsave.
    destruct (content upload_file); [|discriminate].
    injection Hsave as <- _.
    unfold startswith in Htmp.
    destruct (tmp_basename env1) as [|c1 [|c2 [|c3 rest]]]; try discriminate;
      rewrite ?prefix_cons in Htmp;
      repeat match type of Htmp with
             | _ && _ = true => apply andb_true_iff in Htmp as [?H Htmp]
             end;
      repeat match goal with
             | E : Ascii.eqb _ _ = true |- _ => apply Ascii.eqb_eq in E; subst
             end; discriminate.
Qed.

Lemma output_paths_do_not_collide_witness :
  "/tmp/tmpab12cd34.mp4" <> _generate_output_path base_env "mp4".
Proof.
  apply (proj2 (output_paths_do_not_collide base_env base_env "mp4" "mp4"
                  eq_refl eq_refl)
           clip empty_world "/tmp/tmpab12cd34.mp4"
           (set_files {[ "/tmp/tmpab12cd34.mp4" := 1000%Z ]} empty_world)).
  reflexivity.
Defined.

(** ** What reaches the transcoder *)

Lemma new_events_app (w w' : world) (evs : list os_event) :
  events w' = events w ++ evs -> new_events w w' = evs.
Proof. intros H. unfold new_events. rewrite H. apply drop_app_length. Qed.

Lemma defaults_harmless (args : list string) :
  Forall (fun t => has_dangerous_char t = false)
    ((if existsb (fun arg => startswith arg "-c:v" || String.eqb arg "-vcodec") args
      then [] else ["-c:v"; "libx264"])
     ++ (if existsb (fun arg => String.eqb arg "-crf") args
         then [] else ["-crf"; "23"])).
Proof.
  destruct (existsb (fun arg => startswith arg "-c:v" || _) args),
           (existsb (fun arg => String.eqb arg "-crf") args);
    repeat constructor.
Qed.

(** X19. Only sanitised arguments reach the transcoder: every [ffmpeg]
    command the service spawns is the command assembled from an argument
    list the validator accepted, and none of its options (the caller's
    tokens and the defaults between the input and the output path) holds
    a dangerous character.  For a rejected list no command is spawned at
    all. *)
Theorem spawned_transcoder_is_sanitised
  (env : Env) (input_path output_format : string) (args : list string) (w : world)
  (c : list string) :
  let w' := snd (FFmpegService.compress_video env input_path args output_format w) in
  In (EvSpawn c) (new_events w w') ->
  hd "" c = "ffmpeg" ->
  c = _build_ffmpeg_command input_path (_generate_output_path env output_format) args /\
  fst (validate_options args) = true /\
  Forall (fun t => has_dangerous_char t = false) (options_of c).
Proof.
  intros w' Hin Hhd.
  assert (fst (validate_options args) = true) as Hacc.
  { destruct (fst (validate_options args)) eqn:E; [reflexivity|]. exfalso.
    unfold w', FFmpegService.compress_video in Hin.
    destruct (validate_options args) as [v msg]. cbn [fst] in E. subst v.
    cbn in Hin. unfold new_events in Hin. rewrite drop_all in Hin. destruct Hin. }
  destruct (service_only_runs env input_path output_format args w)
    as [(evs & Hev & Hall) _].
  fold w' in Hev. rewrite (new_events_app w w' evs Hev) in Hin.
  rewrite List.Forall_forall in Hall. specialize (Hall _ Hin). cbn [event_cmd] in Hall.
  assert (c = _build_ffmpeg_command input_path
                (_generate_output_path env output_format) args) as ->.
  { destruct Hall as [<-|[<-|[<-|[]]]]; [discriminate|reflexivity|discriminate]. }
  repeat split; [exact Hacc|].
  rewrite options_of_build. apply Forall_app. split; [|apply defaults_harmless].
  apply List.Forall_forall. intros t Ht.
  pose proof (accepted_tokens args Hacc) as Hpass.
  rewrite forallb_forall in Hpass. specialize (Hpass t Ht).
  destruct (token_passes_shape t Hpass) as [Hal|[_ Hd]]; [|exact Hd].
  pose proof allowed_flags_harmless as H. rewrite List.Forall_forall in H.
  now apply H.
Qed.

Lemma spawned_transcoder_is_sanitised_witness :
  Forall (fun t => has_dangerous_char t = false)
    (options_of ["ffmpeg"; "-i"; "/tmp/in.mp4"; "-crf"; "28"; "-c:v"; "libx264"; "-y";
                 "/tmp/compressed_0123456789abcdef0123456789abcdef.mp4"]).
Proof.
  apply (spawned_transcoder_is_sanitised base_env "/tmp/in.mp4" "mp4" ["-crf"; "28"]
           empty_world).
  - vm_compute. tauto.
  - reflexivity.
Defined.

(** X20. The process events of the runner: nothing when the command
    cannot be spawned; spawn and wait when it exits, with whatever
    status; spawn and kill, without a wait after it, when the wait times
    out; and only the spawn, with neither kill nor wait, when the wait
    fails otherwise. *)
Theorem runner_process_events (env : Env) (cmd : list string) (w : world) :
  new_events w (snd (_execute_ffmpeg env cmd w)) =
  match os_spawn env cmd (files w) with
  | Some _ => []
  | None =>
      match fst (os_wait env cmd MAX_PROCESSING_TIME (files w)) with
      | Exited _ _ _ => [EvSpawn cmd; EvWait cmd]
      | TimesOut | WaitRaises TimeoutExpired _ => [EvSpawn cmd; EvKill cmd]
      | WaitRaises _ _ => [EvSpawn cmd]
      end
  end.
Proof.
  unfold _execute_ffmpeg, bind, Popen, try_except, communicate, kill, modify, raise.
  destruct (os_spawn env cmd (files w)) as [[k text]|].
  - destruct k; cbn; unfold new_events; now rewrite drop_all.
  - cbn [files log_event].
    destruct (os_wait env cmd MAX_PROCESSING_TIME (files w))
      as [[|k text|rc out err] fs]; cbn [fst].
    + apply new_events_app. cbn. now rewrite <- app_assoc.
    + destruct k; apply new_events_app; cbn; rewrite <- ?app_assoc; reflexivity.
    + destruct (negb (rc =? 0)%Z); apply new_events_app; cbn;
        now rewrite <- app_assoc.
Qed.

(** ** The result of the service *)

